(** * NBA ingestion scripts: a shallow embedding and its properties

    The three scripts under [scripts/] fetch tabular data from the NBA stats
    API, rename a few columns and replace a Postgres table with the result:

    - [ingest_boxscores.py]: one request per game id found in
      [public.raw_nba_games], failures skipped, one write at the end;
    - [ingest_games.py]: one request for the team's season game log;
    - [ingest_player_game_logs.py]: one request for the league game log.

    The pandas frames, the stats API and the database are modelled just as far
    as the scripts use them.  Effects (printing, requests, sleeping, reading
    and writing tables) are recorded in a log of events, and the database is
    threaded through as a finite map from qualified table names to frames. *)

From Stdlib Require Import ZArith String List Lia.
From Stdlib Require Import OrdersEx.
From stdpp Require Import base decidable option list sorting strings gmap.

Open Scope string_scope.
Open Scope list_scope.

Set Warnings "-clear-no-such-hyp".

(** ** Cell values *)

(** What a cell of a frame or a Python variable of the scripts can hold:
    [None]/NaN/NULL, an integer, or a string.  The scripts never look into a
    cell, so the other kinds of cells (floats, dates) are left out. *)
Inductive value : Type :=
  | VNull
  | VInt (n : Z)
  | VStr (s : string).

#[export] Instance value_eq_dec : EqDecision value.
Proof. solve_decision. Defined.

(** The order of [ORDER BY ... ASC].  A column of a table has one type, so
    only the order inside [VInt] and inside [VStr] matters; NULLs sort last,
    as Postgres does for ascending order. *)
Definition value_leb (a b : value) : bool :=
  match a, b with
  | VInt x, VInt y => (x <=? y)%Z
  | VInt _, _ => true
  | VStr _, VInt _ => false
  | VStr s, VStr t => String.leb s t
  | VStr _, VNull => true
  | VNull, VNull => true
  | VNull, _ => false
  end.

Definition value_le (a b : value) : Prop := value_leb a b = true.

#[export] Instance value_le_dec : RelDecision value_le.
Proof. intros a b. unfold value_le. apply _. Defined.

(** ** Frames *)

(** A pandas [DataFrame] as the scripts see it: the column labels in order and
    the rows, each row holding one cell per label, by position. *)
Record DataFrame : Type := mkFrame {
  columns : list string;
  rows : list (list value)
}.

#[export] Instance DataFrame_eq_dec : EqDecision DataFrame.
Proof. solve_decision. Defined.

(** [len(df)] *)
Definition len (df : DataFrame) : nat := length (rows df).

(** The frames the stats API hands out: labels are unique and every row has
    one cell per label. *)
Definition shaped (df : DataFrame) : Prop :=
  Forall (λ r, length r = length (columns df)) (rows df).

Definition wf_frame (df : DataFrame) : Prop :=
  NoDup (columns df) ∧ shaped df.

#[export] Instance wf_frame_dec df : Decision (wf_frame df).
Proof. unfold wf_frame, shaped. apply _. Defined.

(** The cell of row [row] under label [c] (the first such label). *)
Fixpoint cell (cols : list string) (row : list value) (c : string)
  : option value :=
  match cols, row with
  | c' :: cols', x :: row' =>
      if decide (c' = c) then Some x else cell cols' row' c
  | _, _ => None
  end.

(** [df[c].tolist()] for a label that is present. *)
Definition column (df : DataFrame) (c : string) : list value :=
  omap (λ r, cell (columns df) r c) (rows df).

(** [df.rename(columns=m)]: every label that is a key of [m] is replaced by
    its image, the others stay; cells are not touched.  Keys of [m] that are
    no label of [df] are ignored (pandas' default [errors="ignore"]). *)
Definition rename_label (m : gmap string string) (c : string) : string :=
  default c (m !! c).

Definition rename (m : gmap string string) (df : DataFrame) : DataFrame :=
  {| columns := rename_label m <$> columns df; rows := rows df |}.

(** [df[c] = v] with a scalar [v]: an existing column is overwritten in every
    row, a new one is appended as the last column. *)
Definition set_column (c : string) (v : value) (df : DataFrame) : DataFrame :=
  if decide (c ∈ columns df) then
    {| columns := columns df;
       rows := (λ r, zip_with (λ c' x, if decide (c' = c) then v else x)
                              (columns df) r) <$> rows df |}
  else
    {| columns := columns df ++ [c];
       rows := (λ r, r ++ [v]) <$> rows df |}.

(** The labels of [pd.concat(frames)]: those of the first frame, then the new
    ones of each later frame, in order of appearance. *)
Definition merge_labels (acc cols : list string) : list string :=
  acc ++ filter (λ c, c ∉ acc) cols.

Definition union_columns (frames : list DataFrame) : list string :=
  foldl (λ acc f, merge_labels acc (columns f)) [] frames.

(** A row of a frame with labels [cols], laid out under the labels [target];
    cells the row has no label for become NaN. *)
Definition reindex (target cols : list string) (row : list value)
  : list value :=
  (λ c, default VNull (cell cols row c)) <$> target.

(** ** Exceptions and results *)

Inductive exn : Type :=
  | ValueError (msg : string)
  | IndexError
  | KeyError (key : string)
  | ApiError (msg : string)
  | ProgrammingError (msg : string).

Inductive result (A : Type) : Type :=
  | Ok (a : A)
  | Raise (e : exn).
Arguments Ok {A} a.
Arguments Raise {A} e.

(** [pd.concat(frames, ignore_index=True)] for frames with unique labels:
    ValueError on an empty list, else the rows of all frames in order, each
    laid out under the union of the labels. *)
Definition concat (frames : list DataFrame) : result DataFrame :=
  match frames with
  | [] => Raise (ValueError "No objects to concatenate")
  | _ =>
      let cols := union_columns frames in
      Ok {| columns := cols;
            rows := f ← frames; reindex cols (columns f) <$> rows f |}
  end.

(** [xs[0]] *)
Definition first_item {A} (xs : list A) : result A :=
  match xs with
  | [] => Raise IndexError
  | x :: _ => Ok x
  end.

(** ** The outside world: requests, log lines, events *)

(** The three endpoints of [nba_api.stats.endpoints] the scripts construct,
    with the arguments they pass. *)
Inductive request : Type :=
  | BoxScoreTraditionalV3 (game_id : value)
  | TeamGameLog (team_id season : string)
  | LeagueGameLog (season season_type direction : string).

(** The stats service: constructing an endpoint and calling
    [get_data_frames()] on it either raises or yields a list of frames. *)
Definition service : Type := request → result (list DataFrame).

(** The lines the scripts print, with the values interpolated into them. *)
Inductive message : Type :=
  | MsgConnecting
  | MsgLoadingGameIds
  | MsgFound (n : nat)
  | MsgFetching (idx total : nat) (game_id : value)
  | MsgNoFrames (game_id : value)
  | MsgError (game_id : value) (e : exn)
  | MsgNoData
  | MsgTotal (n : nat)
  | MsgWriting (table : string)
  | MsgDone
  | MsgFetchingLogs
  | MsgFetched (n : nat)
  | MsgDoneLoading.

(** What a script does to the outside: a line printed, a request sent, a
    pause, a query, and a call of [to_sql] with the frame handed over
    (whether or not the database accepts it). *)
Inductive event : Type :=
  | Print (m : message)
  | Call (r : request)
  | Sleep (ms : Z)
  | ReadSql (table col : string)
  | ToSql (table : string) (df : DataFrame).

(** The database: the tables that exist, by qualified name. *)
Abbreviation database := (gmap string DataFrame).

(** ** The monad of the scripts

    A computation starts from a database and ends with a result or an
    exception, the events it performed (oldest first) and the database it
    leaves. *)
Record outcome (A : Type) : Type := mkOutcome {
  res : result A;
  log : list event;
  final : database
}.
Arguments mkOutcome {A} res log final.
Arguments res {A} o.
Arguments log {A} o.
Arguments final {A} o.

Definition M (A : Type) : Type := database → outcome A.

Definition ret {A} (a : A) : M A := λ db, mkOutcome (Ok a) [] db.

Definition raise {A} (e : exn) : M A := λ db, mkOutcome (Raise e) [] db.

Definition bind {A B} (m : M A) (k : A → M B) : M B := λ db,
  let o := m db in
  match res o with
  | Ok a => let o' := k a (final o) in
            mkOutcome (res o') (log o ++ log o') (final o')
  | Raise e => mkOutcome (Raise e) (log o) (final o)
  end.

Declare Scope script_scope.
Delimit Scope script_scope with script.
Notation "x <- m ;; k" := (bind m (λ x, k))
  (at level 100, m at next level, right associativity,
   format "'[v' x  <-  m  ;;  '/' k ']'") : script_scope.
Notation "m ;;; k" := (bind m (λ _, k))
  (at level 100, right associativity,
   format "'[v' m  ;;;  '/' k ']'") : script_scope.
Open Scope script_scope.

(** [try: body except Exception as e: handler(e)] *)
Definition try_except {A} (body : M A) (handler : exn → M A) : M A := λ db,
  let o := body db in
  match res o with
  | Ok a => o
  | Raise e => let o' := handler e (final o) in
               mkOutcome (res o') (log o ++ log o') (final o')
  end.

Definition emit (e : event) : M unit := λ db, mkOutcome (Ok tt) [e] db.

Definition print (m : message) : M unit := emit (Print m).

Definition lift {A} (r : result A) : M A := λ db, mkOutcome r [] db.

(** [time.sleep(0.6)], in milliseconds. *)
Definition sleep (ms : Z) : M unit := emit (Sleep ms).

(** One request to the stats service. *)
Definition call (api : service) (r : request) : M (list DataFrame) := λ db,
  mkOutcome (api r) [Call r] db.

(** The qualified name of a table, as in the f-string of the query. *)
Definition qualified (schema table : string) : string :=
  schema ++ "." ++ table.

(** [pd.read_sql("SELECT DISTINCT col FROM schema.table ORDER BY col")]: the
    distinct values of the column in ascending order, as a one-column frame;
    the query fails when the table or the column does not exist. *)
Definition select_distinct_ordered (schema table col : string) : M DataFrame :=
  λ db,
  let name := qualified schema table in
  let r :=
    match db !! name with
    | None => Raise (ProgrammingError "relation does not exist")
    | Some t =>
        if decide (col ∈ columns t) then
          Ok {| columns := [col];
                rows := (λ v, [v]) <$>
                          merge_sort value_le (remove_dups (column t col)) |}
        else Raise (ProgrammingError "column does not exist")
    end in
  mkOutcome r [ReadSql name col] db.

(** [df[c].tolist()] *)
Definition tolist (df : DataFrame) (c : string) : result (list value) :=
  if decide (c ∈ columns df) then Ok (column df c) else Raise (KeyError c).

(** What the database layer raises for a frame with a repeated label: no
    table has two columns of one name.  (The class of the error depends on
    the version of the layer; the scripts do not look at it.) *)
Definition duplicate_column : exn :=
  ProgrammingError "column specified more than once".

(** [df.to_sql(table, conn, schema=schema, if_exists="replace",
    index=False)]: whatever table had that name is dropped and the frame
    becomes the table.  A frame with a repeated label is refused: the call
    raises and, the replacement being one transaction, the database stays
    as it was. *)
Definition to_sql (df : DataFrame) (table schema : string) : M unit := λ db,
  let name := qualified schema table in
  if decide (NoDup (columns df))
  then mkOutcome (Ok tt) [ToSql name df] (<[name := df]> db)
  else mkOutcome (Raise duplicate_column) [ToSql name df] db.

(** ** scripts/ingest_boxscores.py *)

Module IngestBoxscores.

Definition PG_SCHEMA : string := "public".
Definition RAW_GAMES_TABLE : string := "raw_nba_games".
Definition RAW_BOXSCORES_TABLE : string := "raw_nba_boxscores".

(** How an iteration of the [for] loop ends: by falling off the end of the
    body, or by [continue]. *)
Inductive flow : Type := Normal | Continue.

(** Step 1 of [main]: the game ids of [raw_nba_games]. *)
Definition load_game_ids : M (list value) :=
  game_ids_df <- select_distinct_ordered PG_SCHEMA RAW_GAMES_TABLE "game_id" ;;
  lift (tolist game_ids_df "game_id").

(** The [try] block of the loop body, for one game id. *)
Definition try_block (api : service) (game_id : value)
    (all_rows : list DataFrame) : M (flow * list DataFrame) :=
  dfs <- call api (BoxScoreTraditionalV3 game_id) ;;
  match dfs with
  | [] =>
      print (MsgNoFrames game_id) ;;;
      ret (Continue, all_rows)
  | df0 :: _ =>
      let player_stats_df := df0 in
      let player_stats_df :=
        if decide ("GAME_ID" ∉ columns player_stats_df)
        then set_column "GAME_ID" game_id player_stats_df
        else player_stats_df in
      ret (Normal, all_rows ++ [player_stats_df])
  end.

(** The [except Exception as e] block. *)
Definition except_block (game_id : value) (all_rows : list DataFrame)
    (e : exn) : M (flow * list DataFrame) :=
  print (MsgError game_id e) ;;;
  ret (Continue, all_rows).

(** One iteration of the loop: the progress line, the guarded fetch, and
    the pause, which is reached only when the iteration did not
    [continue]. *)
Definition loop_body (api : service) (idx total : nat) (game_id : value)
    (all_rows : list DataFrame) : M (list DataFrame) :=
  print (MsgFetching idx total game_id) ;;;
  st <- try_except (try_block api game_id all_rows)
                   (except_block game_id all_rows) ;;
  match st with
  | (Continue, all_rows') => ret all_rows'
  | (Normal, all_rows') => sleep 600 ;;; ret all_rows'
  end.

(** Step 2: [for idx, game_id in enumerate(game_ids, start=1)]. *)
Fixpoint fetch_loop (api : service) (idx total : nat) (game_ids : list value)
    (all_rows : list DataFrame) : M (list DataFrame) :=
  match game_ids with
  | [] => ret all_rows
  | game_id :: rest =>
      all_rows' <- loop_body api idx total game_id all_rows ;;
      fetch_loop api (S idx) total rest all_rows'
  end.

Definition GAME_ID_to_game_id : gmap string string :=
  {[ "GAME_ID" := "game_id" ]}.

(** Step 4: [GAME_ID] becomes [game_id] when present. *)
Definition normalize (full_df : DataFrame) : DataFrame :=
  if decide ("GAME_ID" ∈ columns full_df)
  then rename GAME_ID_to_game_id full_df
  else full_df.

(** Steps 3 to 5, after the loop. *)
Definition write_all (all_rows : list DataFrame) : M unit :=
  match all_rows with
  | [] =>
      print MsgNoData ;;;
      ret tt
  | _ =>
      full_df <- lift (concat all_rows) ;;
      print (MsgTotal (len full_df)) ;;;
      let full_df := normalize full_df in
      print (MsgWriting (qualified PG_SCHEMA RAW_BOXSCORES_TABLE)) ;;;
      to_sql full_df RAW_BOXSCORES_TABLE PG_SCHEMA ;;;
      print MsgDone
  end.

Definition main (api : service) : M unit :=
  print MsgConnecting ;;;
  print MsgLoadingGameIds ;;;
  game_ids <- load_game_ids ;;
  print (MsgFound (length game_ids)) ;;;
  all_rows <- fetch_loop api 1 (length game_ids) game_ids [] ;;
  write_all all_rows.

End IngestBoxscores.

(** ** scripts/ingest_games.py *)

Module IngestGames.

Definition NUGGETS_TEAM_ID : string := "1610612743".
Definition SEASON : string := "2023-24".

Definition renamed_columns : gmap string string :=
  list_to_map [ ("Game_ID", "game_id");
                ("GAME_DATE", "game_date");
                ("MATCHUP", "matchup");
                ("WL", "win_loss");
                ("PTS", "team_points") ].

(** The transformation between the fetch and the write. *)
Definition clean (df : DataFrame) : DataFrame :=
  let df_clean := rename renamed_columns df in
  set_column "season" (VStr SEASON) df_clean.

Definition script (api : service) : M unit :=
  print MsgFetchingLogs ;;;
  dfs <- call api (TeamGameLog NUGGETS_TEAM_ID SEASON) ;;
  df <- lift (first_item dfs) ;;
  print (MsgFetched (len df)) ;;;
  let df_clean := clean df in
  print (MsgWriting "raw_nba_games") ;;;
  to_sql df_clean "raw_nba_games" "public" ;;;
  print MsgDone.

End IngestGames.

(** ** scripts/ingest_player_game_logs.py *)

Module IngestPlayerGameLogs.

Definition SEASON : string := "2023-24".

Definition renamed_columns : gmap string string :=
  list_to_map [ ("Player_ID", "player_id");
                ("Player_Name", "player_name");
                ("Team_ID", "team_id");
                ("Team_Name", "team_name");
                ("Game_ID", "game_id") ].

(** The transformation between the fetch and the write: the renaming
    only. *)
Definition clean (df : DataFrame) : DataFrame :=
  rename renamed_columns df.

Definition script (api : service) : M unit :=
  print MsgFetchingLogs ;;;
  dfs <- call api (LeagueGameLog SEASON "Regular Season" "ASC") ;;
  df <- lift (first_item dfs) ;;
  print (MsgFetched (len df)) ;;;
  let df_clean := clean df in
  to_sql df_clean "raw_nba_player_game_logs" "public" ;;;
  print MsgDoneLoading.

End IngestPlayerGameLogs.

(** ** Reading the scripts declaratively *)

Import IngestBoxscores.

(** The frame a game id contributes to [all_rows]: the first frame of a
    successful response, with the id attached under [GAME_ID] when the frame
    has no such label; nothing when the request raises or the response holds
    no frame. *)
Definition first_result (api : service) (game_id : value) : option DataFrame :=
  match api (BoxScoreTraditionalV3 game_id) with
  | Ok (df0 :: _) => Some df0
  | _ => None
  end.

Definition attach (game_id : value) (df0 : DataFrame) : DataFrame :=
  if decide ("GAME_ID" ∉ columns df0)
  then set_column "GAME_ID" game_id df0
  else df0.

Definition prepared (api : service) (game_id : value) : option DataFrame :=
  attach game_id <$> first_result api game_id.

(** The events of one iteration. *)
Definition iteration_log (api : service) (idx total : nat) (game_id : value)
  : list event :=
  [Print (MsgFetching idx total game_id);
   Call (BoxScoreTraditionalV3 game_id)] ++
  match api (BoxScoreTraditionalV3 game_id) with
  | Ok [] => [Print (MsgNoFrames game_id)]
  | Ok (_ :: _) => [Sleep 600]
  | Raise e => [Print (MsgError game_id e)]
  end.

Fixpoint loop_log (api : service) (idx total : nat) (game_ids : list value)
  : list event :=
  match game_ids with
  | [] => []
  | game_id :: rest =>
      iteration_log api idx total game_id ++ loop_log api (S idx) total rest
  end.

(** The records accumulated by a run: the rows [pd.concat] makes of
    [all_rows]; none when [all_rows] is empty. *)
Definition AccumulatedDataset (all_rows : list DataFrame) : list (list value) :=
  match concat all_rows with
  | Ok full_df => rows full_df
  | Raise _ => []
  end.

(** The requests, the queries and the calls of [to_sql] among some
    events. *)
Definition calls (evs : list event) : list request :=
  omap (λ e, match e with Call r => Some r | _ => None end) evs.

Definition reads (evs : list event) : list (string * string) :=
  omap (λ e, match e with ReadSql t c => Some (t, c) | _ => None end) evs.

Definition writes (evs : list event) : list (string * DataFrame) :=
  omap (λ e, match e with ToSql t df => Some (t, df) | _ => None end) evs.

(** A renaming whose new names are not themselves renamed. *)
Definition no_collision (m : gmap string string) : Prop :=
  map_Forall (λ _ target, m !! target = None) m.

#[export] Instance no_collision_dec m : Decision (no_collision m).
Proof. unfold no_collision. apply _. Defined.

(** What the query yields for the table [t] of games. *)
Definition distinct_ordered (t : DataFrame) (col : string) : list value :=
  merge_sort value_le (remove_dups (column t col)).

(** The table [main] replaces. *)
Definition destination : string := qualified PG_SCHEMA RAW_BOXSCORES_TABLE.

(** The events of [main] before the loop, for [n] game ids. *)
Definition preamble (n : nat) : list event :=
  [Print MsgConnecting; Print MsgLoadingGameIds;
   ReadSql (qualified PG_SCHEMA RAW_GAMES_TABLE) "game_id";
   Print (MsgFound n)].

(** The join keys a game id contributes: the frame's own [GAME_ID] cells
    when it has that label, else the game id once per row. *)
Definition join_keys (api : service) (game_id : value) : list value :=
  match first_result api game_id with
  | Some df0 =>
      if decide ("GAME_ID" ∈ columns df0)
      then column df0 "GAME_ID"
      else replicate (len df0) game_id
  | None => []
  end.

(** The frames the loop works on: the first frame of every response that
    has one, in the order of the game ids. *)
Definition payloads (api : service) (game_ids : list value) : list DataFrame :=
  omap (first_result api) game_ids.

(** The error lines and the progress lines among some events. *)
Definition errors (evs : list event) : list (value * exn) :=
  omap (λ e, match e with
             | Print (MsgError game_id e) => Some (game_id, e)
             | _ => None
             end) evs.

Definition progress (evs : list event) : list (nat * nat * value) :=
  omap (λ e, match e with
             | Print (MsgFetching idx total game_id) =>
                 Some (idx, total, game_id)
             | _ => None
             end) evs.

(** The pauses among some events. *)
Definition sleeps (evs : list event) : list Z :=
  omap (λ e, match e with Sleep ms => Some ms | _ => None end) evs.

(** The exception a request raised, if it raised. *)
Definition failure (api : service) (game_id : value) : option (value * exn) :=
  match api (BoxScoreTraditionalV3 game_id) with
  | Raise e => Some (game_id, e)
  | Ok _ => None
  end.

(** A renaming that sends no two old names to the same new name. *)
Definition one_to_one (m : gmap string string) : Prop :=
  map_Forall (λ k t, map_Forall (λ k' t', t' = t → k' = k) m) m.

#[export] Instance one_to_one_dec m : Decision (one_to_one m).
Proof. unfold one_to_one. apply _. Defined.

(** A renaming none of whose new names is already a label in [cols]. *)
Definition fresh_targets (m : gmap string string) (cols : list string) : Prop :=
  map_Forall (λ _ t, t ∉ cols) m.

#[export] Instance fresh_targets_dec m cols : Decision (fresh_targets m cols).
Proof. unfold fresh_targets. apply _. Defined.


(** ** Sample runs *)

Module Sample.

(** Two box-score lines without a [GAME_ID] label. *)
Definition two_players : DataFrame :=
  {| columns := ["personId"; "points"];
     rows := [[VInt 203999; VInt 30]; [VInt 1627750; VInt 20]] |}.


(** A payload that brings its own [GAME_ID], filled in. *)
Definition own_key : DataFrame :=
  {| columns := ["GAME_ID"; "personId"];
     rows := [[VStr "0029999999"; VInt 203999]] |}.

(** A payload with labels and no rows. *)
Definition no_rows : DataFrame :=
  {| columns := ["personId"; "points"]; rows := [] |}.

(** [raw_nba_games] with two games, one of them listed twice. *)
Definition games_table : DataFrame :=
  {| columns := ["game_id"; "matchup"];
     rows := [[VStr "0022300002"; VStr "DEN @ LAL"];
              [VStr "0022300001"; VStr "DEN vs. LAL"];
              [VStr "0022300002"; VStr "DEN @ LAL"]] |}.

(** [raw_nba_games] without any game. *)
Definition no_games_table : DataFrame :=
  {| columns := ["game_id"; "matchup"]; rows := [] |}.

(** What an earlier run left in [raw_nba_boxscores]. *)
Definition old_boxscores : DataFrame :=
  {| columns := ["personId"; "points"; "game_id"];
     rows := [[VInt 203999; VInt 12; VStr "0022200001"]] |}.

Definition db : database :=
  {[ "public.raw_nba_games" := games_table;
     "public.raw_nba_boxscores" := old_boxscores ]}.

Definition db_no_games : database :=
  {[ "public.raw_nba_games" := no_games_table;
     "public.raw_nba_boxscores" := old_boxscores ]}.

Definition boxscore_api (answer : string → result (list DataFrame)) : service :=
  λ r, match r with
       | BoxScoreTraditionalV3 (VStr game_id) => answer game_id
       | _ => Raise (ApiError "unexpected request")
       end.

(** The first game answers, the second request fails. *)
Definition second_fails : service :=
  boxscore_api (λ game_id,
    if decide (game_id = "0022300001") then Ok [two_players]
    else Raise (ApiError "timeout")).

(** The first request fails, the second game answers. *)
Definition first_fails : service :=
  boxscore_api (λ game_id,
    if decide (game_id = "0022300001") then Raise (ApiError "timeout")
    else Ok [two_players]).

(** Every request fails. *)
Definition all_fail : service := boxscore_api (λ _, Raise (ApiError "timeout")).

(** Every request answers with no frame at all. *)
Definition no_frames : service := boxscore_api (λ _, Ok []).

(** Every request answers with a frame without rows. *)
Definition empty_frames : service := boxscore_api (λ _, Ok [no_rows]).


(** The first game brings its own [GAME_ID], the second has none. *)
Definition own_keys : service :=
  boxscore_api (λ game_id,
    if decide (game_id = "0022300001") then Ok [own_key]
    else Ok [two_players]).

(** A team game log and a league game log of one line each. *)
Definition team_log : DataFrame :=
  {| columns := ["Team_ID"; "Game_ID"; "GAME_DATE"; "MATCHUP"; "WL"; "PTS"];
     rows := [[VInt 1610612743; VStr "0022300001"; VStr "OCT 24, 2023";
               VStr "DEN vs. LAL"; VStr "W"; VInt 119]] |}.

Definition league_log : DataFrame :=
  {| columns := ["SEASON_ID"; "Player_ID"; "Player_Name"; "Team_ID";
                 "Team_Name"; "Game_ID"; "PTS"];
     rows := [[VStr "22023"; VInt 203999; VStr "Nikola Jokic";
               VInt 1610612743; VStr "Denver Nuggets"; VStr "0022300001";
               VInt 29]] |}.

Definition season_api : service :=
  λ r, match r with
       | TeamGameLog _ _ => Ok [team_log]
       | LeagueGameLog _ _ _ => Ok [league_log]
       | BoxScoreTraditionalV3 _ => Raise (ApiError "unexpected request")
       end.

End Sample.

(** Decidable facts about the sample runs are settled by computing their
    decision. *)
Ltac computed := apply (bool_decide_unpack _); vm_compute; exact I.

(** ** The monad, step by step *)

Section Monad.
Context {A B : Type}.

Lemma bind_Ok (m : M A) (k : A → M B) db a :
  res (m db) = Ok a →
  bind m k db =
    mkOutcome (res (k a (final (m db))))
              (log (m db) ++ log (k a (final (m db))))
              (final (k a (final (m db)))).
Proof. intros H. unfold bind. by rewrite H. Qed.

Lemma bind_Raise (m : M A) (k : A → M B) db e :
  res (m db) = Raise e →
  bind m k db = mkOutcome (Raise e) (log (m db)) (final (m db)).
Proof. intros H. unfold bind. by rewrite H. Qed.

Lemma bind_outcome (k : A → M B) (m : M A) db a evs db' :
  m db = mkOutcome (Ok a) evs db' →
  bind m k db =
    mkOutcome (res (k a db')) (evs ++ log (k a db')) (final (k a db')).
Proof. intros H. unfold bind. by rewrite H. Qed.
End Monad.

Lemma bind_print {B} (m : message) (k : unit → M B) db :
  bind (print m) k db =
    mkOutcome (res (k tt db)) (Print m :: log (k tt db)) (final (k tt db)).
Proof. reflexivity. Qed.

Lemma outcome_eta {A} (o : outcome A) :
  o = mkOutcome (res o) (log o) (final o).
Proof. by destruct o. Qed.

(** ** The fetch loop *)

Lemma loop_body_spec api idx total game_id all_rows db :
  loop_body api idx total game_id all_rows db =
    mkOutcome (Ok (all_rows ++ option_list (prepared api game_id)))
              (iteration_log api idx total game_id) db.
Proof.
  unfold loop_body, try_except, try_block, except_block, bind, call, print,
    emit, sleep, ret, prepared, first_result, iteration_log, attach.
  cbn. destruct (api (BoxScoreTraditionalV3 game_id)) as [[|df0 dfs]|e]; cbn.
  - by rewrite app_nil_r.
  - done.
  - by rewrite app_nil_r.
Qed.

Lemma fetch_loop_spec api game_ids : ∀ idx total all_rows db,
  fetch_loop api idx total game_ids all_rows db =
    mkOutcome (Ok (all_rows ++ omap (prepared api) game_ids))
              (loop_log api idx total game_ids) db.
Proof.
  induction game_ids as [|game_id rest IH]; intros idx total all_rows db; cbn.
  - unfold ret. by rewrite app_nil_r.
  - rewrite (bind_outcome _ _ _ _ _ _ (loop_body_spec _ _ _ _ _ _)).
    rewrite IH. cbn. f_equal. f_equal.
    rewrite <- app_assoc. f_equal.
    by destruct (prepared api game_id).
Qed.

(** ** The order of game ids *)

Lemma ascii_compare_N a b :
  Ascii.compare a b = N.compare (Ascii.N_of_ascii a) (Ascii.N_of_ascii b).
Proof. reflexivity. Qed.

Lemma string_compare_trans c s : ∀ t u,
  String.compare s t = c → String.compare t u = c → String.compare s u = c.
Proof.
  induction s as [|a s IH]; intros [|b t] [|d u]; cbn; try congruence.
  rewrite !ascii_compare_N.
  destruct (N.compare_spec (Ascii.N_of_ascii a) (Ascii.N_of_ascii b)) as [E1|L1|L1];
    destruct (N.compare_spec (Ascii.N_of_ascii b) (Ascii.N_of_ascii d)) as [E2|L2|L2];
    intros H1 H2; subst; try congruence.
  - rewrite E1, E2, N.compare_refl. by eapply IH.
  - rewrite E1. by apply N.compare_lt_iff in L2 as ->.
  - rewrite E1. by apply N.compare_gt_iff in L2 as ->.
  - rewrite <- E2. by apply N.compare_lt_iff in L1 as ->.
  - assert (L : (Ascii.N_of_ascii a < Ascii.N_of_ascii d)%N) by lia.
    by apply N.compare_lt_iff in L as ->.
  - rewrite <- E2. by apply N.compare_gt_iff in L1 as ->.
  - assert (L : (Ascii.N_of_ascii d < Ascii.N_of_ascii a)%N) by lia.
    by apply N.compare_gt_iff in L as ->.
Qed.

Lemma string_leb_trans s t u :
  String.leb s t = true → String.leb t u = true → String.leb s u = true.
Proof.
  unfold String.leb.
  destruct (String.compare s t) eqn:E1; [| |done];
    destruct (String.compare t u) eqn:E2; try done; intros _ _.
  - apply String.compare_eq_iff in E1 as ->. by rewrite E2.
  - apply String.compare_eq_iff in E1 as ->. by rewrite E2.
  - apply String.compare_eq_iff in E2 as <-. by rewrite E1.
  - by rewrite (string_compare_trans Lt s t u E1 E2).
Qed.

#[export] Instance value_le_total : Total value_le.
Proof.
  intros [|x|s] [|y|t]; unfold value_le; cbn; auto.
  - destruct (Z.leb_spec x y), (Z.leb_spec y x); auto; lia.
  - destruct (String.leb_total s t); auto.
Qed.

#[export] Instance value_le_trans : Transitive value_le.
Proof.
  intros [|x|s] [|y|t] [|z|u]; unfold value_le; cbn; try done.
  - rewrite !Z.leb_le. lia.
  - apply string_leb_trans.
Qed.

#[export] Instance value_le_antisym : AntiSymm (=) value_le.
Proof.
  intros [|x|s] [|y|t]; unfold value_le; cbn; try done.
  - rewrite !Z.leb_le. intros. f_equal. lia.
  - intros H1 H2. f_equal. by apply String.leb_antisym.
Qed.

(** ** Loading the game ids *)

Lemma column_singleton col (vs : list value) :
  column {| columns := [col]; rows := (λ v, [v]) <$> vs |} col = vs.
Proof.
  unfold column. cbn. induction vs as [|v vs IH]; cbn; [done|].
  rewrite decide_True by done. cbn. by rewrite IH.
Qed.

Lemma load_game_ids_spec db :
  load_game_ids db =
    mkOutcome
      match db !! qualified PG_SCHEMA RAW_GAMES_TABLE with
      | None => Raise (ProgrammingError "relation does not exist")
      | Some t =>
          if decide ("game_id" ∈ columns t)
          then Ok (distinct_ordered t "game_id")
          else Raise (ProgrammingError "column does not exist")
      end
      [ReadSql (qualified PG_SCHEMA RAW_GAMES_TABLE) "game_id"] db.
Proof.
  unfold load_game_ids, bind, select_distinct_ordered, lift, tolist.
  cbn [res log final].
  destruct (db !! qualified PG_SCHEMA RAW_GAMES_TABLE) as [t|]; [|done].
  destruct (decide ("game_id" ∈ columns t)); [|done].
  cbn [res log final columns]. rewrite decide_True by set_solver.
  by rewrite column_singleton.
Qed.

Lemma load_game_ids_Ok db game_ids :
  res (load_game_ids db) = Ok game_ids →
  ∃ t, db !! qualified PG_SCHEMA RAW_GAMES_TABLE = Some t
       ∧ "game_id" ∈ columns t
       ∧ game_ids = distinct_ordered t "game_id".
Proof.
  rewrite load_game_ids_spec. cbn [res].
  destruct (db !! qualified PG_SCHEMA RAW_GAMES_TABLE) as [t|]; [|done].
  destruct (decide ("game_id" ∈ columns t)); [|done].
  intros [= <-]. eauto.
Qed.

Lemma load_game_ids_outcome db game_ids :
  res (load_game_ids db) = Ok game_ids →
  load_game_ids db =
    mkOutcome (Ok game_ids)
              [ReadSql (qualified PG_SCHEMA RAW_GAMES_TABLE) "game_id"] db.
Proof. rewrite load_game_ids_spec. cbn [res]. by intros ->. Qed.

Lemma distinct_ordered_NoDup t col : NoDup (distinct_ordered t col).
Proof.
  unfold distinct_ordered. rewrite merge_sort_Permutation.
  apply NoDup_remove_dups.
Qed.

Lemma distinct_ordered_elem_of t col v :
  v ∈ distinct_ordered t col ↔ v ∈ column t col.
Proof.
  unfold distinct_ordered. rewrite merge_sort_Permutation.
  apply elem_of_remove_dups.
Qed.

Lemma distinct_ordered_sorted t col :
  StronglySorted value_le (distinct_ordered t col).
Proof. apply StronglySorted_merge_sort; apply _. Qed.

(** ** After the loop *)

Lemma concat_nonempty f frames :
  ∃ full_df, concat (f :: frames) = Ok full_df.
Proof. unfold concat. eauto. Qed.

Lemma write_all_empty db :
  write_all [] db = mkOutcome (Ok tt) [Print MsgNoData] db.
Proof. reflexivity. Qed.

Lemma write_all_nonempty all_rows full_df db :
  all_rows ≠ [] →
  concat all_rows = Ok full_df →
  write_all all_rows db =
    if decide (NoDup (columns (normalize full_df)))
    then mkOutcome (Ok tt)
           [Print (MsgTotal (len full_df)); Print (MsgWriting destination);
            ToSql destination (normalize full_df); Print MsgDone]
           (<[destination := normalize full_df]> db)
    else mkOutcome (Raise duplicate_column)
           [Print (MsgTotal (len full_df)); Print (MsgWriting destination);
            ToSql destination (normalize full_df)]
           db.
Proof.
  intros Hne Hc. destruct all_rows as [|f frames]; [done|].
  unfold write_all, bind, lift, to_sql, print, emit. rewrite Hc.
  cbn [res log final].
  by destruct (decide (NoDup (columns (normalize full_df)))).
Qed.

Lemma main_spec api db game_ids :
  res (load_game_ids db) = Ok game_ids →
  let all_rows := omap (prepared api) game_ids in
  let o := write_all all_rows db in
  main api db =
    mkOutcome (res o)
      (preamble (length game_ids)
         ++ loop_log api 1 (length game_ids) game_ids ++ log o)
      (final o).
Proof.
  intros Hload all_rows o. unfold main.
  rewrite !bind_print. cbn [res log final].
  rewrite (bind_outcome _ _ _ _ _ _ (load_game_ids_outcome _ _ Hload)).
  rewrite bind_print. cbn [res log final].
  rewrite (bind_outcome _ _ _ _ _ _ (fetch_loop_spec _ _ _ _ _ _)).
  cbn [res log final app]. reflexivity.
Qed.

(** ** Cells under the frame operations *)

Lemma cell_is_Some cols : ∀ row c,
  c ∈ cols → length row = length cols → is_Some (cell cols row c).
Proof.
  induction cols as [|c' cols IH]; intros [|x row] c Hin Hlen; cbn in *;
    try done.
  - set_solver.
  - destruct (decide (c' = c)); [eauto|].
    apply IH; [set_solver | lia].
Qed.

Lemma cell_app_new cols : ∀ row c v,
  c ∉ cols → length row = length cols →
  cell (cols ++ [c]) (row ++ [v]) c = Some v.
Proof.
  induction cols as [|c' cols IH]; intros [|x row] c v Hin Hlen; cbn in *;
    try done.
  - by rewrite decide_True.
  - rewrite decide_False by set_solver. apply IH; [set_solver | lia].
Qed.

Lemma cell_app_old cols : ∀ row c c' v,
  c' ≠ c → length row = length cols →
  cell (cols ++ [c]) (row ++ [v]) c' = cell cols row c'.
Proof.
  induction cols as [|c0 cols IH]; intros [|x row] c c' v Hne Hlen; cbn in *;
    try done.
  - by rewrite decide_False.
  - destruct (decide (c0 = c')); [done|]. apply IH; [done | lia].
Qed.

Lemma cell_reindex target cols row c :
  c ∈ target →
  cell target (reindex target cols row) c
    = Some (default VNull (cell cols row c)).
Proof.
  unfold reindex. induction target as [|c' target IH]; intros Hin; cbn.
  - set_solver.
  - destruct (decide (c' = c)) as [->|Hne]; [done|].
    apply IH. set_solver.
Qed.

Lemma rename_label_singleton_eq (c t : string) :
  rename_label {[ c := t ]} c = t.
Proof. unfold rename_label. by rewrite lookup_singleton_eq. Qed.

Lemma rename_label_singleton_ne (c t c' : string) :
  c' ≠ c → rename_label {[ c := t ]} c' = c'.
Proof. intros. unfold rename_label. by rewrite lookup_singleton_ne. Qed.

Lemma cell_rename_singleton c t cols : ∀ row,
  t ∉ cols →
  cell (rename_label {[ c := t ]} <$> cols) row t = cell cols row c.
Proof.
  induction cols as [|c' cols IH]; intros [|x row] Hin; cbn; try done.
  destruct (decide (c' = c)) as [->|Hne].
  - rewrite rename_label_singleton_eq. by rewrite decide_True.
  - rewrite rename_label_singleton_ne by done.
    rewrite decide_False by set_solver. apply IH. set_solver.
Qed.

Lemma elem_of_merge_labels acc cols c :
  c ∈ merge_labels acc cols ↔ c ∈ acc ∨ c ∈ cols.
Proof.
  unfold merge_labels. rewrite elem_of_app, list_elem_of_filter.
  destruct (decide (c ∈ acc)); naive_solver.
Qed.

Lemma elem_of_foldl_merge frames : ∀ acc c,
  c ∈ foldl (λ acc f, merge_labels acc (columns f)) acc frames
  ↔ c ∈ acc ∨ ∃ f, f ∈ frames ∧ c ∈ columns f.
Proof.
  induction frames as [|f frames IH]; intros acc c; cbn.
  - split; [auto|]. intros [?|(f & Hf & _)]; [done|].
    by apply elem_of_nil in Hf.
  - rewrite IH, elem_of_merge_labels. split.
    + intros [[?|?]|(g & ? & ?)]; [auto| |].
      * right. exists f. split; [left|done].
      * right. exists g. split; [by right|done].
    + intros [?|(g & Hg & ?)]; [auto|].
      apply elem_of_cons in Hg as [->|?]; [auto|]. right. eauto.
Qed.

Lemma elem_of_union_columns frames c :
  c ∈ union_columns frames ↔ ∃ f, f ∈ frames ∧ c ∈ columns f.
Proof.
  unfold union_columns. rewrite elem_of_foldl_merge. split; [|eauto].
  intros [H|?]; [|done]. by apply elem_of_nil in H.
Qed.

(** ** Attaching the game id *)

Lemma attach_present game_id df0 :
  "GAME_ID" ∈ columns df0 → attach game_id df0 = df0.
Proof. intros H. unfold attach. by rewrite decide_False by auto. Qed.

Lemma attach_absent game_id df0 :
  "GAME_ID" ∉ columns df0 →
  attach game_id df0 =
    {| columns := columns df0 ++ ["GAME_ID"];
       rows := (λ r, r ++ [game_id]) <$> rows df0 |}.
Proof.
  intros H. unfold attach, set_column. rewrite decide_True by done.
  by rewrite decide_False by done.
Qed.

Lemma attach_has_GAME_ID game_id df0 :
  "GAME_ID" ∈ columns (attach game_id df0).
Proof.
  destruct (decide ("GAME_ID" ∈ columns df0)).
  - by rewrite attach_present.
  - rewrite attach_absent by done. cbn. set_solver.
Qed.

Lemma attach_columns_other game_id df0 c :
  c ≠ "GAME_ID" → c ∈ columns (attach game_id df0) → c ∈ columns df0.
Proof.
  intros Hne. destruct (decide ("GAME_ID" ∈ columns df0)).
  - by rewrite attach_present.
  - rewrite attach_absent by done. cbn. set_solver.
Qed.


Lemma attach_shaped game_id df0 : shaped df0 → shaped (attach game_id df0).
Proof.
  intros Hs. destruct (decide ("GAME_ID" ∈ columns df0)).
  - by rewrite attach_present.
  - rewrite attach_absent by done. unfold shaped in *. cbn.
    apply Forall_fmap. eapply Forall_impl; [exact Hs|].
    intros r Hr. cbn. rewrite !length_app, Hr. done.
Qed.

Lemma column_attach_absent game_id df0 :
  shaped df0 → "GAME_ID" ∉ columns df0 →
  column (attach game_id df0) "GAME_ID" = replicate (len df0) game_id.
Proof.
  intros Hs Hno. rewrite attach_absent by done.
  unfold column, len, shaped in *. cbn.
  induction Hs as [|r rs Hr Hrs IH]; cbn; [done|].
  rewrite cell_app_new by done. cbn. by rewrite IH.
Qed.

(** ** Concatenation *)

Lemma concat_Ok frames full_df :
  concat frames = Ok full_df →
  full_df =
    {| columns := union_columns frames;
       rows := f ← frames; reindex (union_columns frames) (columns f) <$> rows f |}.
Proof. destruct frames; [done|]. by intros [= <-]. Qed.




Lemma normalize_rows full_df : rows (normalize full_df) = rows full_df.
Proof. unfold normalize. by destruct (decide _). Qed.

(** The [game_id] cell of a written row is the [GAME_ID] cell the row had in
    its own frame. *)
Lemma written_cell all_rows full_df f r :
  concat all_rows = Ok full_df →
  (∀ g, g ∈ all_rows → "game_id" ∉ columns g) →
  f ∈ all_rows → "GAME_ID" ∈ columns f →
  cell (columns (normalize full_df))
       (reindex (columns full_df) (columns f) r) "game_id"
    = Some (default VNull (cell (columns f) r "GAME_ID")).
Proof.
  intros ->%concat_Ok Hlow Hf HG. cbn [columns].
  assert (HU : "GAME_ID" ∈ union_columns all_rows).
  { apply elem_of_union_columns. eauto. }
  assert (HL : "game_id" ∉ union_columns all_rows).
  { rewrite elem_of_union_columns. intros (g & Hg & Hc). by eapply Hlow. }
  unfold normalize. cbn [columns]. rewrite decide_True by done.
  unfold rename, GAME_ID_to_game_id. cbn [columns].
  rewrite cell_rename_singleton by done.
  by apply cell_reindex.
Qed.

Lemma written_column_frame all_rows full_df f :
  concat all_rows = Ok full_df →
  (∀ g, g ∈ all_rows → "game_id" ∉ columns g) →
  f ∈ all_rows → "GAME_ID" ∈ columns f → shaped f →
  omap (λ r, cell (columns (normalize full_df)) r "game_id")
       (reindex (columns full_df) (columns f) <$> rows f)
    = column f "GAME_ID".
Proof.
  intros Hc Hlow Hf HG Hs. unfold column.
  apply list_omap_ext. apply Forall2_fmap_l, Forall_Forall2_diag.
  eapply Forall_impl; [exact Hs|]. intros r Hr. unfold compose. cbn beta in *.
  rewrite (written_cell all_rows) by done.
  by destruct (cell_is_Some (columns f) r "GAME_ID" HG Hr) as [v ->].
Qed.

Lemma written_column all_rows full_df :
  concat all_rows = Ok full_df →
  (∀ g, g ∈ all_rows → "game_id" ∉ columns g) →
  (∀ g, g ∈ all_rows → "GAME_ID" ∈ columns g ∧ shaped g) →
  column (normalize full_df) "game_id" = f ← all_rows; column f "GAME_ID".
Proof.
  intros Hc Hlow Hwf. unfold column at 1. rewrite normalize_rows.
  assert (Hrows : rows full_df =
            f ← all_rows; reindex (columns full_df) (columns f) <$> rows f).
  { by rewrite (concat_Ok _ _ Hc). }
  rewrite Hrows. clear Hrows.
  assert (Hsub : Forall (λ f, f ∈ all_rows) all_rows).
  { by apply Forall_forall. }
  revert Hsub. generalize all_rows at 2 3 4 as frames.
  induction frames as [|f frames IH]; intros Hsub; [done|].
  apply Forall_cons in Hsub as [Hf Hsub].
  rewrite !bind_cons, omap_app, IH by done. f_equal.
  destruct (Hwf f Hf). by apply (written_column_frame all_rows).
Qed.

(** ** What the loop does to the outside *)

Lemma prepared_None api game_id :
  first_result api game_id = None → prepared api game_id = None.
Proof. unfold prepared. by intros ->. Qed.

Lemma omap_prepared_nil api (game_ids : list value) :
  (∀ id, id ∈ game_ids → first_result api id = None) →
  omap (prepared api) game_ids = [].
Proof.
  induction game_ids as [|id rest IH]; intros H; [done|]. cbn.
  rewrite prepared_None by (apply H; left).
  apply IH. intros. apply H. by right.
Qed.

Lemma elem_of_all_rows api (game_ids : list value) (f : DataFrame) :
  f ∈ omap (prepared api) game_ids →
  ∃ id df0, id ∈ game_ids ∧ first_result api id = Some df0
            ∧ f = attach id df0.
Proof.
  intros (id & Hid & Hp)%list_elem_of_omap. unfold prepared in Hp.
  destruct (first_result api id) as [df0|] eqn:E; [|done].
  injection Hp as <-. eauto.
Qed.

Lemma writes_loop_log api game_ids : ∀ idx total,
  writes (loop_log api idx total game_ids) = [].
Proof.
  induction game_ids as [|id rest IH]; intros idx total; [done|].
  cbn [loop_log]. unfold writes in *. rewrite omap_app, IH.
  unfold iteration_log.
  by destruct (api (BoxScoreTraditionalV3 id)) as [[|??]|?].
Qed.

Lemma reads_loop_log api game_ids : ∀ idx total,
  reads (loop_log api idx total game_ids) = [].
Proof.
  induction game_ids as [|id rest IH]; intros idx total; [done|].
  cbn [loop_log]. unfold reads in *. rewrite omap_app, IH.
  unfold iteration_log.
  by destruct (api (BoxScoreTraditionalV3 id)) as [[|??]|?].
Qed.

Lemma calls_loop_log api game_ids : ∀ idx total,
  calls (loop_log api idx total game_ids)
    = BoxScoreTraditionalV3 <$> game_ids.
Proof.
  induction game_ids as [|id rest IH]; intros idx total; [done|].
  cbn [loop_log]. unfold calls in *. rewrite omap_app, IH.
  unfold iteration_log.
  by destruct (api (BoxScoreTraditionalV3 id)) as [[|??]|?].
Qed.

(** What [write_all] comes to, by whether anything was accumulated and
    whether the database accepts the frame. *)
Lemma write_all_cases all_rows db :
  (all_rows = [] ∧
   write_all all_rows db = mkOutcome (Ok tt) [Print MsgNoData] db)
  ∨ (∃ full_df, all_rows ≠ [] ∧ concat all_rows = Ok full_df ∧
       NoDup (columns (normalize full_df)) ∧
       write_all all_rows db =
         mkOutcome (Ok tt)
           [Print (MsgTotal (len full_df)); Print (MsgWriting destination);
            ToSql destination (normalize full_df); Print MsgDone]
           (<[destination := normalize full_df]> db))
  ∨ (∃ full_df, all_rows ≠ [] ∧ concat all_rows = Ok full_df ∧
       ¬ NoDup (columns (normalize full_df)) ∧
       write_all all_rows db =
         mkOutcome (Raise duplicate_column)
           [Print (MsgTotal (len full_df)); Print (MsgWriting destination);
            ToSql destination (normalize full_df)]
           db).
Proof.
  destruct all_rows as [|f frames]; [by left|right].
  destruct (concat_nonempty f frames) as [full_df Hc].
  rewrite (write_all_nonempty _ full_df db) by done.
  destruct (decide (NoDup (columns (normalize full_df)))).
  - left. by exists full_df.
  - right. by exists full_df.
Qed.


(** ** The season scripts, step by step *)

Lemma ingest_games_spec api db df dfs :
  api (TeamGameLog IngestGames.NUGGETS_TEAM_ID IngestGames.SEASON)
    = Ok (df :: dfs) →
  IngestGames.script api db =
    if decide (NoDup (columns (IngestGames.clean df)))
    then mkOutcome (Ok tt)
           [Print MsgFetchingLogs;
            Call (TeamGameLog IngestGames.NUGGETS_TEAM_ID IngestGames.SEASON);
            Print (MsgFetched (len df));
            Print (MsgWriting "raw_nba_games");
            ToSql "public.raw_nba_games" (IngestGames.clean df);
            Print MsgDone]
           (<["public.raw_nba_games" := IngestGames.clean df]> db)
    else mkOutcome (Raise duplicate_column)
           [Print MsgFetchingLogs;
            Call (TeamGameLog IngestGames.NUGGETS_TEAM_ID IngestGames.SEASON);
            Print (MsgFetched (len df));
            Print (MsgWriting "raw_nba_games");
            ToSql "public.raw_nba_games" (IngestGames.clean df)]
           db.
Proof.
  intros H. unfold IngestGames.script. rewrite bind_print.
  unfold bind, call, lift, first_item, print, emit, to_sql.
  cbn [res log final]. rewrite H. cbn [res log final].
  by destruct (decide (NoDup (columns (IngestGames.clean df)))).
Qed.

Lemma ingest_player_game_logs_spec api db df dfs :
  api (LeagueGameLog IngestPlayerGameLogs.SEASON "Regular Season" "ASC")
    = Ok (df :: dfs) →
  IngestPlayerGameLogs.script api db =
    if decide (NoDup (columns (IngestPlayerGameLogs.clean df)))
    then mkOutcome (Ok tt)
           [Print MsgFetchingLogs;
            Call (LeagueGameLog IngestPlayerGameLogs.SEASON
                    "Regular Season" "ASC");
            Print (MsgFetched (len df));
            ToSql "public.raw_nba_player_game_logs"
                  (IngestPlayerGameLogs.clean df);
            Print MsgDoneLoading]
           (<["public.raw_nba_player_game_logs"
                := IngestPlayerGameLogs.clean df]> db)
    else mkOutcome (Raise duplicate_column)
           [Print MsgFetchingLogs;
            Call (LeagueGameLog IngestPlayerGameLogs.SEASON
                    "Regular Season" "ASC");
            Print (MsgFetched (len df));
            ToSql "public.raw_nba_player_game_logs"
                  (IngestPlayerGameLogs.clean df)]
           db.
Proof.
  intros H. unfold IngestPlayerGameLogs.script. rewrite bind_print.
  unfold bind, call, lift, first_item, print, emit, to_sql.
  cbn [res log final]. rewrite H. cbn [res log final].
  by destruct (decide (NoDup (columns (IngestPlayerGameLogs.clean df)))).
Qed.

Lemma ingest_games_writes api db df dfs :
  api (TeamGameLog IngestGames.NUGGETS_TEAM_ID IngestGames.SEASON)
    = Ok (df :: dfs) →
  writes (log (IngestGames.script api db))
    = [("public.raw_nba_games", IngestGames.clean df)].
Proof.
  intros H. rewrite (ingest_games_spec _ _ _ _ H). by destruct (decide _).
Qed.

Lemma ingest_player_game_logs_writes api db df dfs :
  api (LeagueGameLog IngestPlayerGameLogs.SEASON "Regular Season" "ASC")
    = Ok (df :: dfs) →
  writes (log (IngestPlayerGameLogs.script api db))
    = [("public.raw_nba_player_game_logs", IngestPlayerGameLogs.clean df)].
Proof.
  intros H. rewrite (ingest_player_game_logs_spec _ _ _ _ H).
  by destruct (decide _).
Qed.

Lemma elem_of_payloads api (game_ids : list value) id df0 :
  id ∈ game_ids → first_result api id = Some df0 →
  df0 ∈ payloads api game_ids.
Proof. intros. apply list_elem_of_omap. eauto. Qed.

Lemma payloads_nil api (game_ids : list value) :
  payloads api game_ids = [] →
  ∀ id, id ∈ game_ids → first_result api id = None.
Proof.
  intros Hnil id Hid. destruct (first_result api id) as [df0|] eqn:E; [|done].
  pose proof (elem_of_payloads _ _ _ _ Hid E) as Hin.
  rewrite Hnil in Hin. by apply elem_of_nil in Hin.
Qed.

(** ** The run as a whole *)

Lemma writes_preamble n : writes (preamble n) = [].
Proof. reflexivity. Qed.

Lemma main_writes api db (game_ids : list value) full_df :
  res (load_game_ids db) = Ok game_ids →
  concat (omap (prepared api) game_ids) = Ok full_df →
  writes (log (main api db)) = [(destination, normalize full_df)].
Proof.
  intros Hload Hc. rewrite (main_spec _ _ _ Hload). cbn zeta. cbn [log].
  unfold writes. rewrite !omap_app.
  fold (writes (loop_log api 1 (length game_ids) game_ids)).
  rewrite writes_loop_log.
  destruct (write_all_cases (omap (prepared api) game_ids) db)
    as [[Hnil _]|[(full' & _ & Hc' & _ & ->)|(full' & _ & Hc' & _ & ->)]].
  - by rewrite Hnil in Hc.
  - rewrite Hc in Hc'. by injection Hc' as <-.
  - rewrite Hc in Hc'. by injection Hc' as <-.
Qed.

(** A run that accumulated frames the database accepts. *)
Lemma main_written api db (game_ids : list value) full_df :
  res (load_game_ids db) = Ok game_ids →
  concat (omap (prepared api) game_ids) = Ok full_df →
  NoDup (columns (normalize full_df)) →
  main api db =
    mkOutcome (Ok tt)
      (preamble (length game_ids)
         ++ loop_log api 1 (length game_ids) game_ids
         ++ [Print (MsgTotal (len full_df)); Print (MsgWriting destination);
             ToSql destination (normalize full_df); Print MsgDone])
      (<[destination := normalize full_df]> db).
Proof.
  intros Hload Hc Hnd. rewrite (main_spec _ _ _ Hload). cbn zeta.
  assert (Hne : omap (prepared api) game_ids ≠ []).
  { intros Hnil. by rewrite Hnil in Hc. }
  rewrite (write_all_nonempty _ _ db Hne Hc).
  by rewrite decide_True by done.
Qed.

(** A run that accumulated frames the database refuses. *)
Lemma main_refused api db (game_ids : list value) full_df :
  res (load_game_ids db) = Ok game_ids →
  concat (omap (prepared api) game_ids) = Ok full_df →
  ¬ NoDup (columns (normalize full_df)) →
  main api db =
    mkOutcome (Raise duplicate_column)
      (preamble (length game_ids)
         ++ loop_log api 1 (length game_ids) game_ids
         ++ [Print (MsgTotal (len full_df)); Print (MsgWriting destination);
             ToSql destination (normalize full_df)])
      db.
Proof.
  intros Hload Hc Hnd. rewrite (main_spec _ _ _ Hload). cbn zeta.
  assert (Hne : omap (prepared api) game_ids ≠ []).
  { intros Hnil. by rewrite Hnil in Hc. }
  rewrite (write_all_nonempty _ _ db Hne Hc).
  by rewrite decide_False by done.
Qed.

Lemma main_final api db (game_ids : list value) full_df :
  res (load_game_ids db) = Ok game_ids →
  concat (omap (prepared api) game_ids) = Ok full_df →
  NoDup (columns (normalize full_df)) →
  final (main api db) = <[destination := normalize full_df]> db.
Proof. intros Hload Hc Hnd. by rewrite (main_written _ _ _ _ Hload Hc Hnd). Qed.

Lemma AccumulatedDataset_rows frames :
  AccumulatedDataset frames
    = f ← frames; reindex (union_columns frames) (columns f) <$> rows f.
Proof. by destruct frames. Qed.

Lemma list_bind_omap {A B C} (g : A → option B) (h : B → list C) (l : list A) :
  (y ← omap g l; h y) = x ← l; from_option h [] (g x).
Proof.
  induction l as [|x l IH]; [done|]. cbn. destruct (g x) as [y|]; cbn.
  - by rewrite IH.
  - done.
Qed.

(** What the frames of [all_rows] have in common. *)
Lemma all_rows_shaped api (game_ids : list value) (f : DataFrame) :
  Forall wf_frame (payloads api game_ids) →
  f ∈ omap (prepared api) game_ids →
  "GAME_ID" ∈ columns f ∧ shaped f.
Proof.
  intros Hwf (id & df0 & Hid & Hfr & ->)%elem_of_all_rows.
  split; [apply attach_has_GAME_ID|]. apply attach_shaped.
  rewrite Forall_forall in Hwf.
  by destruct (Hwf df0 (elem_of_payloads _ _ _ _ Hid Hfr)).
Qed.

Lemma all_rows_no_game_id api (game_ids : list value) (f : DataFrame) :
  Forall (λ df0, "game_id" ∉ columns df0) (payloads api game_ids) →
  f ∈ omap (prepared api) game_ids →
  "game_id" ∉ columns f.
Proof.
  intros Hlow (id & df0 & Hid & Hfr & ->)%elem_of_all_rows Hin.
  rewrite Forall_forall in Hlow.
  apply (Hlow df0 (elem_of_payloads _ _ _ _ Hid Hfr)).
  by apply attach_columns_other in Hin.
Qed.

(** ** Renaming and stamping *)

Lemma rename_label_idem m c :
  no_collision m → rename_label m (rename_label m c) = rename_label m c.
Proof.
  intros Hm. unfold rename_label.
  destruct (m !! c) as [t|] eqn:E; cbn.
  - pose proof (map_Forall_lookup_1 _ _ _ _ Hm E) as Ht. cbn in Ht.
    by rewrite Ht.
  - by rewrite E.
Qed.

Lemma rename_shaped m df : shaped df → shaped (rename m df).
Proof. unfold shaped, rename. cbn. by rewrite length_fmap. Qed.

Lemma cell_overwrite c v cols : ∀ row,
  c ∈ cols → length row = length cols →
  cell cols (zip_with (λ c' x, if decide (c' = c) then v else x) cols row) c
    = Some v.
Proof.
  induction cols as [|c' cols IH]; intros [|x row] Hin Hlen; cbn in *;
    try done.
  - set_solver.
  - destruct (decide (c' = c)) as [->|Hne]; [done|].
    apply IH; [set_solver | lia].
Qed.

Lemma cell_set_column c v df row :
  shaped df → row ∈ rows (set_column c v df) →
  cell (columns (set_column c v df)) row c = Some v.
Proof.
  unfold shaped, set_column. rewrite Forall_forall. intros Hs.
  destruct (decide (c ∈ columns df)); cbn [rows columns];
    intros (r & -> & Hr)%list_elem_of_fmap.
  - apply cell_overwrite; [done|]. by apply Hs.
  - apply cell_app_new; [done|]. by apply Hs.
Qed.

Lemma set_column_len c v df : len (set_column c v df) = len df.
Proof.
  unfold set_column, len. destruct (decide _); cbn; apply length_fmap.
Qed.

Lemma load_game_ids_prior db prior :
  res (load_game_ids (<[destination := prior]> db)) = res (load_game_ids db).
Proof.
  rewrite !load_game_ids_spec. cbn [res].
  by rewrite lookup_insert_ne.
Qed.

(** ** The join key *)

Lemma bind_column_prepared api (game_ids : list value) :
  Forall wf_frame (payloads api game_ids) →
  (f ← omap (prepared api) game_ids; column f "GAME_ID")
    = id ← game_ids; join_keys api id.
Proof.
  intros Hwf. rewrite list_bind_omap.
  apply Forall_bind_ext, Forall_forall. intros id Hid.
  unfold prepared, join_keys.
  destruct (first_result api id) as [df0|] eqn:E; [|done]. cbn.
  destruct (decide ("GAME_ID" ∈ columns df0)).
  - by rewrite attach_present.
  - apply column_attach_absent; [|done].
    rewrite Forall_forall in Hwf.
    by destruct (Hwf df0 (elem_of_payloads _ _ _ _ Hid E)).
Qed.

(** ** When the reads and requests fail *)

Lemma main_load_fails api db e :
  res (load_game_ids db) = Raise e →
  main api db =
    mkOutcome (Raise e)
      [Print MsgConnecting; Print MsgLoadingGameIds;
       ReadSql (qualified PG_SCHEMA RAW_GAMES_TABLE) "game_id"] db.
Proof.
  intros Hload. unfold main. rewrite !bind_print. cbn [res log final].
  rewrite (bind_Raise _ _ _ _ Hload).
  rewrite load_game_ids_spec. reflexivity.
Qed.

(** ** The lines and pauses of a run *)

Lemma progress_loop_log api game_ids : ∀ idx total,
  progress (loop_log api idx total game_ids)
    = imap (λ i game_id, (idx + i, total, game_id)) game_ids.
Proof.
  induction game_ids as [|id rest IH]; intros idx total; [done|].
  cbn [loop_log]. unfold progress in *. rewrite omap_app, IH, imap_cons.
  unfold iteration_log.
  replace (idx + 0) with idx by lia.
  assert (Himap :
    imap (λ i game_id, (S idx + i, total, game_id)) rest
    = imap ((λ i game_id, (idx + i, total, game_id)) ∘ S) rest).
  { apply imap_ext. intros i x _. cbn. do 2 f_equal. lia. }
  rewrite Himap.
  by destruct (api (BoxScoreTraditionalV3 id)) as [[|??]|?].
Qed.

Lemma errors_loop_log api game_ids : ∀ idx total,
  errors (loop_log api idx total game_ids) = omap (failure api) game_ids.
Proof.
  induction game_ids as [|id rest IH]; intros idx total; [done|].
  cbn [loop_log]. unfold errors in *. rewrite omap_app, IH.
  unfold iteration_log, failure. cbn.
  by destruct (api (BoxScoreTraditionalV3 id)) as [[|??]|?].
Qed.

Lemma sleeps_loop_log api game_ids : ∀ idx total,
  sleeps (loop_log api idx total game_ids)
    = replicate (length (omap (prepared api) game_ids)) 600%Z.
Proof.
  induction game_ids as [|id rest IH]; intros idx total; [done|].
  cbn [loop_log]. unfold sleeps in *. rewrite omap_app, IH.
  unfold iteration_log, prepared, first_result. cbn.
  by destruct (api (BoxScoreTraditionalV3 id)) as [[|??]|?].
Qed.

(** ** Renaming moves cells and keeps frames well formed *)

Lemma omap_ext_all {A B} (f g : A → option B) (l : list A) :
  (∀ x, f x = g x) → omap f l = omap g l.
Proof.
  intros H. induction l as [|x l IH]; [done|]. cbn. by rewrite H, IH.
Qed.

Lemma cell_fmap_labels (f : string → string) c d cols : ∀ row,
  (∀ c', c' ∈ cols → f c' = d ↔ c' = c) →
  cell (f <$> cols) row d = cell cols row c.
Proof.
  induction cols as [|c' cols IH]; intros [|x row] H; cbn; try done.
  assert (Hc' : f c' = d ↔ c' = c) by (apply H; left).
  destruct (decide (c' = c)) as [Heq|Hne].
  - by rewrite decide_True by (by apply Hc').
  - rewrite decide_False by (by rewrite Hc').
    apply IH. intros c'' Hin. apply H. by right.
Qed.

Lemma rename_label_hits m k t (cols : list string) c' :
  one_to_one m → m !! k = Some t → t ∉ cols → c' ∈ cols →
  rename_label m c' = t ↔ c' = k.
Proof.
  intros Hm Hk Ht Hc'. unfold rename_label. split.
  - destruct (m !! c') as [t'|] eqn:E; cbn.
    + intros ->.
      pose proof (map_Forall_lookup_1 _ _ _ _ Hm Hk) as Hk'. cbn in Hk'.
      by apply (map_Forall_lookup_1 _ _ _ _ Hk' E).
    + intros ->. done.
  - intros ->. by rewrite Hk.
Qed.

Lemma rename_label_keeps m c (cols : list string) c' :
  fresh_targets m cols → m !! c = None → c ∈ cols → c' ∈ cols →
  rename_label m c' = c ↔ c' = c.
Proof.
  intros Hfresh Hc Hin Hc'. unfold rename_label. split.
  - destruct (m !! c') as [t'|] eqn:E; cbn; [|done].
    intros ->. by destruct (map_Forall_lookup_1 _ _ _ _ Hfresh E).
  - intros ->. by rewrite Hc.
Qed.

Lemma rename_label_inj_on m (cols : list string) c c' :
  one_to_one m → fresh_targets m cols → c ∈ cols → c' ∈ cols →
  rename_label m c = rename_label m c' → c = c'.
Proof.
  intros Hm Hfresh Hc Hc' Heq.
  destruct (m !! c) as [t|] eqn:E.
  - symmetry. apply (rename_label_hits m c t cols c'); try done.
    + apply (map_Forall_lookup_1 _ _ _ _ Hfresh E).
    + rewrite <- Heq. unfold rename_label. by rewrite E.
  - apply (rename_label_keeps m c' cols c); try done.
    + destruct (m !! c') as [t'|] eqn:E'; [|done]. exfalso.
      unfold rename_label in Heq. rewrite E, E' in Heq. cbn in Heq. subst.
      by destruct (map_Forall_lookup_1 _ _ _ _ Hfresh E').
    + assert (Hself : rename_label m c = c).
      { unfold rename_label. by rewrite E. }
      rewrite Hself in Heq. rewrite Heq.
      destruct (m !! c') as [t'|] eqn:E'.
      * exfalso. unfold rename_label in Heq. rewrite E' in Heq. cbn in Heq.
        subst. by destruct (map_Forall_lookup_1 _ _ _ _ Hfresh E').
      * unfold rename_label in *. rewrite E' in *. cbn in *. by subst.
Qed.

Lemma rename_NoDup m df :
  one_to_one m → fresh_targets m (columns df) →
  NoDup (columns df) → NoDup (columns (rename m df)).
Proof.
  intros Hm Hfresh Hnd. unfold rename. cbn [columns].
  apply NoDup_fmap_2_strong; [|done].
  intros c c' Hc Hc'. by apply (rename_label_inj_on m (columns df)).
Qed.

Lemma rename_wf m df :
  one_to_one m → fresh_targets m (columns df) →
  wf_frame df → wf_frame (rename m df).
Proof.
  intros Hm Hfresh [Hnd Hs].
  split; [by apply rename_NoDup | by apply rename_shaped].
Qed.

(** ** Assigning a column *)

Lemma cell_overwrite_other c v c' cols : ∀ row,
  c' ≠ c →
  cell cols (zip_with (λ c0 x, if decide (c0 = c) then v else x) cols row) c'
    = cell cols row c'.
Proof.
  induction cols as [|c0 cols IH]; intros [|x row] Hne; cbn; try done.
  destruct (decide (c0 = c')) as [->|Hne'].
  - by rewrite decide_False.
  - by apply IH.
Qed.

Lemma set_column_other c v df c' :
  c' ≠ c → shaped df → column (set_column c v df) c' = column df c'.
Proof.
  intros Hne Hs. unfold column, set_column.
  destruct (decide (c ∈ columns df)); cbn [rows columns];
    apply list_omap_ext, Forall2_fmap_l, Forall_Forall2_diag;
    (eapply Forall_impl; [exact Hs|]); intros r Hr; unfold compose;
    cbn beta in *.
  - by apply cell_overwrite_other.
  - by apply cell_app_old.
Qed.

Lemma set_column_wf c v df : wf_frame df → wf_frame (set_column c v df).
Proof.
  intros [Hnd Hs]. unfold set_column, wf_frame, shaped in *.
  destruct (decide (c ∈ columns df)); cbn [rows columns].
  - split; [done|]. apply Forall_fmap.
    eapply Forall_impl; [exact Hs|]. intros r Hr. unfold compose.
    cbn beta in *. rewrite length_zip_with. lia.
  - split.
    + apply NoDup_app. split; [done|]. split; [set_solver|].
      apply NoDup_singleton.
    + apply Forall_fmap. eapply Forall_impl; [exact Hs|]. intros r Hr.
      unfold compose. cbn beta in *. rewrite !length_app, Hr. done.
Qed.

Lemma column_rename_target m df k t :
  one_to_one m → m !! k = Some t → t ∉ columns df →
  column (rename m df) t = column df k.
Proof.
  intros Hm Hk Ht. unfold column, rename. cbn [rows columns].
  apply omap_ext_all. intros r. apply cell_fmap_labels. intros c' Hc'.
  by apply (rename_label_hits m k t (columns df)).
Qed.

Lemma column_rename_other m df c :
  fresh_targets m (columns df) → m !! c = None → c ∈ columns df →
  column (rename m df) c = column df c.
Proof.
  intros Hfresh Hc Hin. unfold column, rename. cbn [rows columns].
  apply omap_ext_all. intros r. apply cell_fmap_labels. intros c' Hc'.
  by apply (rename_label_keeps m c (columns df)).
Qed.

Lemma games_targets_not_season :
  map_Forall (λ _ t, t ≠ "season") IngestGames.renamed_columns.
Proof. computed. Qed.

Lemma games_renaming_one_to_one : one_to_one IngestGames.renamed_columns.
Proof. computed. Qed.

(** ** From the game log to the box scores *)

Lemma main_calls api db (game_ids : list value) :
  res (load_game_ids db) = Ok game_ids →
  calls (log (main api db)) = BoxScoreTraditionalV3 <$> game_ids.
Proof.
  intros Hload. rewrite (main_spec _ _ _ Hload). cbn zeta. cbn [log].
  unfold calls. rewrite !omap_app.
  fold (calls (loop_log api 1 (length game_ids) game_ids)).
  rewrite calls_loop_log.
  destruct (write_all_cases (omap (prepared api) game_ids) db)
    as [[_ ->]|[(full_df & _ & _ & _ & ->)|(full_df & _ & _ & _ & ->)]]; cbn; by rewrite app_nil_r.
Qed.

(** ** The written frame *)

Lemma NoDup_merge_labels acc cols :
  NoDup acc → NoDup cols → NoDup (merge_labels acc cols).
Proof.
  intros Hacc Hcols. unfold merge_labels. apply NoDup_app.
  split; [done|]. split; [|by apply NoDup_filter].
  intros c Hc (Hnot & _)%list_elem_of_filter. done.
Qed.

Lemma NoDup_foldl_merge frames : ∀ acc,
  NoDup acc → Forall (λ f, NoDup (columns f)) frames →
  NoDup (foldl (λ acc f, merge_labels acc (columns f)) acc frames).
Proof.
  induction frames as [|f frames IH]; intros acc Hacc Hfs; [done|].
  apply Forall_cons in Hfs as [Hf Hfs]. cbn.
  apply IH; [|done]. by apply NoDup_merge_labels.
Qed.

Lemma attach_wf game_id df0 : wf_frame df0 → wf_frame (attach game_id df0).
Proof.
  intros Hwf. unfold attach. destruct (decide _); [|done].
  by apply set_column_wf.
Qed.

Lemma GAME_ID_renaming_one_to_one : one_to_one GAME_ID_to_game_id.
Proof. computed. Qed.

Lemma normalize_unfold full_df :
  "GAME_ID" ∈ columns full_df →
  normalize full_df = rename GAME_ID_to_game_id full_df.
Proof. intros H. unfold normalize. by rewrite decide_True. Qed.

Lemma all_rows_nonempty_has_GAME_ID api (game_ids : list value) full_df :
  concat (omap (prepared api) game_ids) = Ok full_df →
  "GAME_ID" ∈ columns full_df.
Proof.
  intros Hc. rewrite (concat_Ok _ _ Hc). cbn [columns].
  apply elem_of_union_columns.
  destruct (omap (prepared api) game_ids) as [|f frames] eqn:E; [done|].
  exists f. split; [left|].
  assert (Hf : f ∈ omap (prepared api) game_ids) by (rewrite E; left).
  apply elem_of_all_rows in Hf as (id & df0 & _ & _ & ->).
  apply attach_has_GAME_ID.
Qed.

Lemma all_rows_union_no_game_id api (game_ids : list value) full_df :
  Forall (λ df0, "game_id" ∉ columns df0) (payloads api game_ids) →
  concat (omap (prepared api) game_ids) = Ok full_df →
  "game_id" ∉ columns full_df.
Proof.
  intros Hlow Hc. rewrite (concat_Ok _ _ Hc). cbn [columns].
  rewrite elem_of_union_columns. intros (g & Hg & Hin).
  by apply (all_rows_no_game_id api game_ids g).
Qed.

(** ** The other columns of the written frame *)






(** ** Running a script again *)

Lemma ingest_games_final api db :
  final (IngestGames.script api db)
    = match api (TeamGameLog IngestGames.NUGGETS_TEAM_ID IngestGames.SEASON)
      with
      | Ok (df :: _) =>
          if decide (NoDup (columns (IngestGames.clean df)))
          then <["public.raw_nba_games" := IngestGames.clean df]> db
          else db
      | _ => db
      end.
Proof.
  destruct (api _) as [[|df dfs]|e] eqn:H.
  - unfold IngestGames.script. rewrite bind_print.
    unfold bind, call, lift. cbn [res log final]. by rewrite H.
  - rewrite (ingest_games_spec _ _ _ _ H). by destruct (decide _).
  - unfold IngestGames.script. rewrite bind_print.
    unfold bind, call. cbn [res log final]. by rewrite H.
Qed.

Lemma ingest_player_game_logs_final api db :
  final (IngestPlayerGameLogs.script api db)
    = match api (LeagueGameLog IngestPlayerGameLogs.SEASON
                   "Regular Season" "ASC") with
      | Ok (df :: _) =>
          if decide (NoDup (columns (IngestPlayerGameLogs.clean df)))
          then <["public.raw_nba_player_game_logs"
                   := IngestPlayerGameLogs.clean df]> db
          else db
      | _ => db
      end.
Proof.
  destruct (api _) as [[|df dfs]|e] eqn:H.
  - unfold IngestPlayerGameLogs.script. rewrite bind_print.
    unfold bind, call, lift. cbn [res log final]. by rewrite H.
  - rewrite (ingest_player_game_logs_spec _ _ _ _ H). by destruct (decide _).
  - unfold IngestPlayerGameLogs.script. rewrite bind_print.
    unfold bind, call. cbn [res log final]. by rewrite H.
Qed.

Lemma main_final_cases api db :
  final (main api db) = db
  ∨ ∃ (game_ids : list value) full_df,
      res (load_game_ids db) = Ok game_ids
      ∧ concat (omap (prepared api) game_ids) = Ok full_df
      ∧ NoDup (columns (normalize full_df))
      ∧ final (main api db) = <[destination := normalize full_df]> db.
Proof.
  destruct (res (load_game_ids db)) as [game_ids|e] eqn:Hload.
  - rewrite (main_spec _ _ _ Hload). cbn zeta. cbn [final].
    destruct (write_all_cases (omap (prepared api) game_ids) db)
      as [[_ ->]|[(full_df & _ & Hc & Hnd & ->)|(full_df & _ & _ & _ & ->)]];
      [by left| |by left].
    right. by exists game_ids, full_df.
  - left. by rewrite (main_load_fails _ _ _ Hload).
Qed.

(** ** Payloads with the same labels *)

Lemma reindex_same cols : ∀ row,
  NoDup cols → length row = length cols → reindex cols cols row = row.
Proof.
  unfold reindex.
  induction cols as [|c cols IH]; intros [|x row] Hnd Hlen; cbn in *;
    try done.
  apply NoDup_cons in Hnd as [Hc Hnd].
  rewrite decide_True by done. cbn. f_equal.
  transitivity ((λ c0, default VNull (cell cols row c0)) <$> cols);
    [|apply IH; [done|lia]].
  apply list_fmap_ext. intros i c' Hc'%list_elem_of_lookup_2.
  rewrite decide_False; [done|]. by intros ->.
Qed.

Lemma filter_fresh_none (acc cols : list string) :
  (∀ c, c ∈ cols → c ∈ acc) → filter (λ c, c ∉ acc) cols = [].
Proof.
  induction cols as [|c cols IH]; intros H; [done|].
  rewrite filter_cons. rewrite decide_False by (intros Hn; apply Hn, H; left).
  apply IH. intros c' Hc'. apply H. by right.
Qed.

Lemma filter_fresh_all (acc cols : list string) :
  (∀ c, c ∈ cols → c ∉ acc) → filter (λ c, c ∉ acc) cols = cols.
Proof.
  induction cols as [|c cols IH]; intros H; [done|].
  rewrite filter_cons. rewrite decide_True by (apply H; left).
  f_equal. apply IH. intros c' Hc'. apply H. by right.
Qed.

Lemma merge_labels_same cols : merge_labels cols cols = cols.
Proof.
  unfold merge_labels. rewrite filter_fresh_none by done.
  apply app_nil_r.
Qed.

Lemma foldl_merge_same cols frames :
  Forall (λ f, columns f = cols) frames →
  foldl (λ acc f, merge_labels acc (columns f)) cols frames = cols.
Proof.
  induction 1 as [|f frames Hf Hfs IH]; [done|]. cbn.
  by rewrite Hf, merge_labels_same.
Qed.

Lemma union_columns_same cols f frames :
  Forall (λ f, columns f = cols) (f :: frames) →
  union_columns (f :: frames) = cols.
Proof.
  intros [Hf Hfs]%Forall_cons. unfold union_columns. cbn [foldl].
  assert (Hfirst : merge_labels [] (columns f) = cols).
  { unfold merge_labels. rewrite Hf.
    by rewrite filter_fresh_all by set_solver. }
  rewrite Hfirst. by apply foldl_merge_same.
Qed.

(** ** Whether the database accepts the frame *)

Lemma written_wf api (game_ids : list value) full_df :
  Forall wf_frame (payloads api game_ids) →
  Forall (λ df0, "game_id" ∉ columns df0) (payloads api game_ids) →
  concat (omap (prepared api) game_ids) = Ok full_df →
  wf_frame (normalize full_df)
  ∧ "game_id" ∈ columns (normalize full_df)
  ∧ "GAME_ID" ∉ columns (normalize full_df).
Proof.
  intros Hwf Hlow Hc.
  pose proof (all_rows_nonempty_has_GAME_ID _ _ _ Hc) as HG.
  pose proof (all_rows_union_no_game_id _ _ _ Hlow Hc) as HL.
  rewrite normalize_unfold by done.
  assert (Hfull : wf_frame full_df).
  { rewrite (concat_Ok _ _ Hc). split; cbn [columns rows].
    - apply NoDup_foldl_merge; [apply NoDup_nil_2|].
      apply Forall_forall. intros f Hf.
      apply elem_of_all_rows in Hf as (id & df0 & Hid & Hfr & ->).
      apply attach_wf. rewrite Forall_forall in Hwf.
      apply Hwf. by eapply elem_of_payloads.
    - unfold shaped. cbn [columns rows]. apply Forall_forall.
      intros row (f & (r & -> & _)%list_elem_of_fmap & _)%list_elem_of_bind.
      unfold reindex. by rewrite length_fmap. }
  split; [|split].
  - apply rename_wf; [apply GAME_ID_renaming_one_to_one | | done].
    by apply map_Forall_singleton.
  - unfold rename, GAME_ID_to_game_id. cbn [columns].
    apply list_elem_of_fmap.
    exists "GAME_ID". split; [|done].
    by rewrite rename_label_singleton_eq.
  - unfold rename, GAME_ID_to_game_id. cbn [columns].
    intros (c & Hc' & _)%list_elem_of_fmap.
    destruct (decide (c = "GAME_ID")) as [->|Hne].
    + by rewrite rename_label_singleton_eq in Hc'.
    + rewrite rename_label_singleton_ne in Hc' by done. by subst.
Qed.



Lemma all_rows_nonempty api (game_ids : list value) :
  payloads api game_ids ≠ [] → omap (prepared api) game_ids ≠ [].
Proof.
  unfold payloads, prepared. intros Hne Hnil. apply Hne.
  induction game_ids as [|id rest IH]; [done|]. cbn in *.
  destruct (first_result api id); [done|]. by apply IH.
Qed.



Lemma games_clean_wf df :
  wf_frame df → fresh_targets IngestGames.renamed_columns (columns df) →
  wf_frame (IngestGames.clean df).
Proof.
  intros Hwf Hfresh. unfold IngestGames.clean. apply set_column_wf.
  apply rename_wf; [apply games_renaming_one_to_one | done | done].
Qed.



(** * The properties *)

(** C1 (as amended): when no request of the run yields a frame -- the list of
    game ids is empty, or every request raises or answers with no frame at
    all -- [main] prints the "no data" line last, returns normally, performs
    no table write and leaves the database as it found it. *)
Theorem no_frames_no_write api db (game_ids : list value) :
  res (load_game_ids db) = Ok game_ids →
  payloads api game_ids = [] →
  res (main api db) = Ok tt
  ∧ writes (log (main api db)) = []
  ∧ last (log (main api db)) = Some (Print MsgNoData)
  ∧ final (main api db) = db.
Proof.
  intros Hload Hnil. rewrite (main_spec _ _ _ Hload). cbn zeta.
  rewrite (omap_prepared_nil _ _ (payloads_nil _ _ Hnil)).
  rewrite write_all_empty. cbn [res log final].
  split; [done|]. split; [|split; [|done]].
  - unfold writes. rewrite !omap_app. fold (writes (loop_log api 1 (length game_ids) game_ids)).
    by rewrite writes_loop_log.
  - by rewrite app_assoc, last_snoc.
Qed.

Lemma no_frames_no_write_witness :
  res (load_game_ids Sample.db) = Ok [VStr "0022300001"; VStr "0022300002"]
  ∧ payloads Sample.all_fail [VStr "0022300001"; VStr "0022300002"] = []
  ∧ res (main Sample.all_fail Sample.db) = Ok tt
  ∧ writes (log (main Sample.all_fail Sample.db)) = []
  ∧ last (log (main Sample.all_fail Sample.db)) = Some (Print MsgNoData)
  ∧ final (main Sample.all_fail Sample.db) = Sample.db.
Proof.
  split; [by vm_compute|]. split; [by vm_compute|].
  apply (no_frames_no_write Sample.all_fail Sample.db
           [VStr "0022300001"; VStr "0022300002"]); by vm_compute.
Defined.

(** C1 (as stated) fails: when every game answers with a frame that has no
    rows, the accumulated dataset holds no record, yet [main] writes: the
    table of the earlier run is replaced by an empty one. *)
Lemma empty_dataset_is_written :
  res (load_game_ids Sample.db) = Ok [VStr "0022300001"; VStr "0022300002"]
  ∧ res (fetch_loop Sample.empty_frames 1 2
           [VStr "0022300001"; VStr "0022300002"] [] Sample.db)
      = Ok [attach (VStr "0022300001") Sample.no_rows;
            attach (VStr "0022300002") Sample.no_rows]
  ∧ AccumulatedDataset [attach (VStr "0022300001") Sample.no_rows;
                        attach (VStr "0022300002") Sample.no_rows] = []
  ∧ writes (log (main Sample.empty_frames Sample.db))
      = [(destination,
          {| columns := ["personId"; "points"; "game_id"]; rows := [] |})]
  ∧ Sample.db !! destination = Some Sample.old_boxscores
  ∧ final (main Sample.empty_frames Sample.db) !! destination
      = Some {| columns := ["personId"; "points"; "game_id"]; rows := [] |}.
Proof. repeat split; by vm_compute. Qed.



(** C10: a response without any frame is skipped: the iteration prints the
    "no data frames" line and no error line, raises nothing, leaves the
    accumulated frames as they were, and the loop goes on with the next game
    id. *)
Theorem empty_response_is_skipped api idx total game_id (rest : list value)
    all_rows db :
  api (BoxScoreTraditionalV3 game_id) = Ok [] →
  loop_body api idx total game_id all_rows db
    = mkOutcome (Ok all_rows)
        [Print (MsgFetching idx total game_id);
         Call (BoxScoreTraditionalV3 game_id);
         Print (MsgNoFrames game_id)] db
  ∧ fetch_loop api idx total (game_id :: rest) all_rows db
    = mkOutcome
        (res (fetch_loop api (S idx) total rest all_rows db))
        ([Print (MsgFetching idx total game_id);
          Call (BoxScoreTraditionalV3 game_id);
          Print (MsgNoFrames game_id)]
           ++ log (fetch_loop api (S idx) total rest all_rows db))
        (final (fetch_loop api (S idx) total rest all_rows db)).
Proof.
  intros Hempty.
  assert (Hbody : loop_body api idx total game_id all_rows db
    = mkOutcome (Ok all_rows)
        [Print (MsgFetching idx total game_id);
         Call (BoxScoreTraditionalV3 game_id);
         Print (MsgNoFrames game_id)] db).
  { rewrite loop_body_spec. unfold prepared, first_result, iteration_log.
    rewrite Hempty. cbn. by rewrite app_nil_r. }
  split; [done|]. cbn [fetch_loop].
  by rewrite (bind_outcome _ _ _ _ _ _ Hbody).
Qed.

Lemma empty_response_is_skipped_witness :
  Sample.no_frames (BoxScoreTraditionalV3 (VStr "0022300001")) = Ok []
  ∧ fetch_loop Sample.no_frames 1 2 [VStr "0022300001"; VStr "0022300002"]
      [] Sample.db
    = mkOutcome
        (res (fetch_loop Sample.no_frames 2 2 [VStr "0022300002"] [] Sample.db))
        ([Print (MsgFetching 1 2 (VStr "0022300001"));
          Call (BoxScoreTraditionalV3 (VStr "0022300001"));
          Print (MsgNoFrames (VStr "0022300001"))]
           ++ log (fetch_loop Sample.no_frames 2 2 [VStr "0022300002"] []
                     Sample.db))
        (final (fetch_loop Sample.no_frames 2 2 [VStr "0022300002"] []
                  Sample.db)).
Proof.
  split; [reflexivity|].
  apply (empty_response_is_skipped Sample.no_frames 1 2 (VStr "0022300001")
           [VStr "0022300002"] [] Sample.db).
  reflexivity.
Defined.

(** C6 fails on the code: with the first of two requests failing, the second
    request follows the error line at once; the only pause of the run comes
    after the successful second request. *)
Theorem failed_fetch_is_not_followed_by_delay :
  log (fetch_loop Sample.first_fails 1 2
         [VStr "0022300001"; VStr "0022300002"] [] Sample.db)
  = [Print (MsgFetching 1 2 (VStr "0022300001"));
     Call (BoxScoreTraditionalV3 (VStr "0022300001"));
     Print (MsgError (VStr "0022300001") (ApiError "timeout"));
     Print (MsgFetching 2 2 (VStr "0022300002"));
     Call (BoxScoreTraditionalV3 (VStr "0022300002"));
     Sleep 600].
Proof. reflexivity. Qed.

(** C7: the game ids are read once; they are distinct, ascending and exactly
    the values of the [game_id] column of the games table; the requests of
    the run are one box-score request per game id, in that order; and the
    accumulated dataset is the rows of the successful responses' frames, in
    the order of the game ids. *)
Theorem work_items_in_order api db (game_ids : list value) :
  res (load_game_ids db) = Ok game_ids →
  let all_rows := omap (prepared api) game_ids in
  (∃ t, db !! qualified PG_SCHEMA RAW_GAMES_TABLE = Some t
        ∧ ∀ v, v ∈ game_ids ↔ v ∈ column t "game_id")
  ∧ NoDup game_ids
  ∧ StronglySorted value_le game_ids
  ∧ reads (log (main api db))
      = [(qualified PG_SCHEMA RAW_GAMES_TABLE, "game_id")]
  ∧ calls (log (main api db)) = BoxScoreTraditionalV3 <$> game_ids
  ∧ res (fetch_loop api 1 (length game_ids) game_ids [] db) = Ok all_rows
  ∧ AccumulatedDataset all_rows
      = id ← game_ids;
        from_option (λ f, reindex (union_columns all_rows) (columns f)
                            <$> rows f) [] (prepared api id).
Proof.
  intros Hload all_rows.
  destruct (load_game_ids_Ok _ _ Hload) as (t & Ht & Hcol & ->).
  split; [|split; [|split; [|split; [|split; [|split]]]]].
  - exists t. split; [done|]. apply distinct_ordered_elem_of.
  - apply distinct_ordered_NoDup.
  - apply distinct_ordered_sorted.
  - rewrite (main_spec _ _ _ Hload). cbn zeta. cbn [log].
    unfold reads. rewrite !omap_app.
    fold (reads (loop_log api 1 (length (distinct_ordered t "game_id"))
                   (distinct_ordered t "game_id"))).
    rewrite reads_loop_log.
    by destruct (write_all_cases
                   (omap (prepared api) (distinct_ordered t "game_id")) db)
      as [[_ ->]|[(full_df & _ & _ & _ & ->)|(full_df & _ & _ & _ & ->)]].
  - rewrite (main_spec _ _ _ Hload). cbn zeta. cbn [log].
    unfold calls. rewrite !omap_app.
    fold (calls (loop_log api 1 (length (distinct_ordered t "game_id"))
                   (distinct_ordered t "game_id"))).
    rewrite calls_loop_log.
    destruct (write_all_cases
                (omap (prepared api) (distinct_ordered t "game_id")) db)
      as [[_ ->]|[(full_df & _ & _ & _ & ->)|(full_df & _ & _ & _ & ->)]]; cbn; by rewrite app_nil_r.
  - by rewrite fetch_loop_spec.
  - rewrite AccumulatedDataset_rows. apply list_bind_omap.
Qed.

Lemma work_items_in_order_witness :
  res (load_game_ids Sample.db) = Ok [VStr "0022300001"; VStr "0022300002"]
  ∧ calls (log (main Sample.second_fails Sample.db))
      = [BoxScoreTraditionalV3 (VStr "0022300001");
         BoxScoreTraditionalV3 (VStr "0022300002")]
  ∧ reads (log (main Sample.second_fails Sample.db))
      = [("public.raw_nba_games", "game_id")].
Proof.
  split; [by vm_compute|].
  destruct (work_items_in_order Sample.second_fails Sample.db
              [VStr "0022300001"; VStr "0022300002"])
    as (_ & _ & _ & Hreads & Hcalls & _); [by vm_compute|].
  split; [exact Hcalls | exact Hreads].
Defined.



(** C5 (as amended): the team game-log script writes a frame in which every
    record carries the season label "2023-24", one record per record
    fetched; the player game-log script writes the renamed frame and stamps
    nothing. *)
Theorem season_stamped_on_games api db df dfs :
  api (TeamGameLog IngestGames.NUGGETS_TEAM_ID IngestGames.SEASON)
    = Ok (df :: dfs) →
  shaped df →
  writes (log (IngestGames.script api db))
    = [("public.raw_nba_games", IngestGames.clean df)]
  ∧ len (IngestGames.clean df) = len df
  ∧ (∀ row, row ∈ rows (IngestGames.clean df) →
       cell (columns (IngestGames.clean df)) row "season"
         = Some (VStr "2023-24"))
  ∧ (∀ df' dfs',
       api (LeagueGameLog IngestPlayerGameLogs.SEASON "Regular Season" "ASC")
         = Ok (df' :: dfs') →
       writes (log (IngestPlayerGameLogs.script api db))
         = [("public.raw_nba_player_game_logs",
             rename IngestPlayerGameLogs.renamed_columns df')]).
Proof.
  intros H Hs. split; [|split; [|split]].
  - by apply (ingest_games_writes _ _ _ dfs).
  - unfold IngestGames.clean. by rewrite set_column_len.
  - intros row Hrow. unfold IngestGames.clean in *.
    apply cell_set_column; [|done]. by apply rename_shaped.
  - intros df' dfs' H'.
    by apply (ingest_player_game_logs_writes _ _ _ dfs').
Qed.

Lemma season_stamped_on_games_witness :
  shaped Sample.team_log
  ∧ writes (log (IngestGames.script Sample.season_api Sample.db))
      = [("public.raw_nba_games", IngestGames.clean Sample.team_log)]
  ∧ (∀ row, row ∈ rows (IngestGames.clean Sample.team_log) →
       cell (columns (IngestGames.clean Sample.team_log)) row "season"
         = Some (VStr "2023-24")).
Proof.
  assert (Hs : shaped Sample.team_log) by computed.
  split; [exact Hs|].
  destruct (season_stamped_on_games Sample.season_api Sample.db
              Sample.team_log [] eq_refl Hs) as (Hw & _ & Hrows & _).
  split; [exact Hw | exact Hrows].
Defined.

(** C5 (as stated) fails: the frame the player game-log script writes has no
    [season] label, and its record no season cell. *)
Lemma player_logs_carry_no_season :
  writes (log (IngestPlayerGameLogs.script Sample.season_api Sample.db))
    = [("public.raw_nba_player_game_logs",
        {| columns := ["SEASON_ID"; "player_id"; "player_name"; "team_id";
                       "team_name"; "game_id"; "PTS"];
           rows := [[VStr "22023"; VInt 203999; VStr "Nikola Jokic";
                     VInt 1610612743; VStr "Denver Nuggets";
                     VStr "0022300001"; VInt 29]] |})]
  ∧ cell ["SEASON_ID"; "player_id"; "player_name"; "team_id"; "team_name";
          "game_id"; "PTS"]
         [VStr "22023"; VInt 203999; VStr "Nikola Jokic"; VInt 1610612743;
          VStr "Denver Nuggets"; VStr "0022300001"; VInt 29]
         "season" = None.
Proof. split; by vm_compute. Qed.

(** C8: renaming is a function of the mapping and the frame alone; it keeps
    the rows, the number of labels and the shape of the frame, and when no
    new name is itself a name to be renamed, renaming twice is renaming
    once. *)
Theorem rename_total_idempotent m df :
  no_collision m →
  rename m (rename m df) = rename m df
  ∧ rows (rename m df) = rows df
  ∧ length (columns (rename m df)) = length (columns df)
  ∧ (shaped df → shaped (rename m df)).
Proof.
  intros Hm. split; [|split; [|split]].
  - unfold rename. cbn. f_equal. rewrite <- list_fmap_compose.
    apply list_fmap_ext. intros _ c _. cbn. by apply rename_label_idem.
  - done.
  - unfold rename. cbn. apply length_fmap.
  - apply rename_shaped.
Qed.

Lemma rename_total_idempotent_witness :
  (no_collision IngestGames.renamed_columns
   ∧ rename IngestGames.renamed_columns
       (rename IngestGames.renamed_columns Sample.team_log)
     = rename IngestGames.renamed_columns Sample.team_log)
  ∧ (no_collision IngestPlayerGameLogs.renamed_columns
     ∧ rename IngestPlayerGameLogs.renamed_columns
         (rename IngestPlayerGameLogs.renamed_columns Sample.league_log)
       = rename IngestPlayerGameLogs.renamed_columns Sample.league_log)
  ∧ (no_collision GAME_ID_to_game_id
     ∧ rename GAME_ID_to_game_id
         (rename GAME_ID_to_game_id Sample.own_key)
       = rename GAME_ID_to_game_id Sample.own_key).
Proof.
  assert (H1 : no_collision IngestGames.renamed_columns)
    by computed.
  assert (H2 : no_collision IngestPlayerGameLogs.renamed_columns)
    by computed.
  assert (H3 : no_collision GAME_ID_to_game_id)
    by computed.
  split; [|split].
  - split; [exact H1|].
    apply (rename_total_idempotent IngestGames.renamed_columns
             Sample.team_log H1).
  - split; [exact H2|].
    apply (rename_total_idempotent IngestPlayerGameLogs.renamed_columns
             Sample.league_log H2).
  - split; [exact H3|].
    apply (rename_total_idempotent GAME_ID_to_game_id Sample.own_key H3).
Defined.

(** C9: in the written dataset the [game_id] column is, game id by game id,
    the payload's own [GAME_ID] cells where the payload has that label
    (nulls and foreign ids included), and the game id itself, once per
    record, where it has not; a payload with the label enters the
    accumulated frames unchanged. *)
Theorem join_key_kept_or_attached api db (game_ids : list value) full_df :
  res (load_game_ids db) = Ok game_ids →
  Forall wf_frame (payloads api game_ids) →
  Forall (λ df0, "game_id" ∉ columns df0) (payloads api game_ids) →
  concat (omap (prepared api) game_ids) = Ok full_df →
  writes (log (main api db)) = [(destination, normalize full_df)]
  ∧ column (normalize full_df) "game_id" = (id ← game_ids; join_keys api id)
  ∧ (∀ id df0, first_result api id = Some df0 →
       "GAME_ID" ∈ columns df0 →
       prepared api id = Some df0
       ∧ join_keys api id = column df0 "GAME_ID")
  ∧ (∀ id df0, first_result api id = Some df0 →
       "GAME_ID" ∉ columns df0 →
       join_keys api id = replicate (len df0) id).
Proof.
  intros Hload Hwf Hlow Hc. split; [|split; [|split]].
  - by apply (main_writes _ _ game_ids).
  - rewrite (written_column _ _ Hc).
    + by apply bind_column_prepared.
    + intros g Hg. by apply (all_rows_no_game_id api game_ids).
    + intros g Hg. by apply (all_rows_shaped api game_ids).
  - intros id df0 Hfr HG. unfold prepared, join_keys. rewrite Hfr. cbn.
    rewrite attach_present by done. by rewrite decide_True.
  - intros id df0 Hfr HG. unfold join_keys. rewrite Hfr.
    by rewrite decide_False.
Qed.

Lemma join_key_kept_or_attached_witness :
  column
    (normalize
       {| columns := ["GAME_ID"; "personId"; "points"];
          rows := [[VStr "0029999999"; VInt 203999; VNull];
                   [VStr "0022300002"; VInt 203999; VInt 30];
                   [VStr "0022300002"; VInt 1627750; VInt 20]] |})
    "game_id"
  = [VStr "0029999999"; VStr "0022300002"; VStr "0022300002"]
  ∧ writes (log (main Sample.own_keys Sample.db))
    = [(destination,
        {| columns := ["game_id"; "personId"; "points"];
           rows := [[VStr "0029999999"; VInt 203999; VNull];
                    [VStr "0022300002"; VInt 203999; VInt 30];
                    [VStr "0022300002"; VInt 1627750; VInt 20]] |})].
Proof.
  destruct (join_key_kept_or_attached Sample.own_keys Sample.db
              [VStr "0022300001"; VStr "0022300002"]
              {| columns := ["GAME_ID"; "personId"; "points"];
                 rows := [[VStr "0029999999"; VInt 203999; VNull];
                          [VStr "0022300002"; VInt 203999; VInt 30];
                          [VStr "0022300002"; VInt 1627750; VInt 20]] |})
    as (Hw & Hcol & _).
  - by vm_compute.
  - computed.
  - computed.
  - by vm_compute.
  - split; [exact Hcol | exact Hw].
Defined.




(** X1: when the games table does not exist, or has no [game_id] column,
    [main] ends with the database error of the query: no request is sent,
    nothing is written and the database is left as it was. *)
Theorem main_needs_games_table api db :
  (db !! qualified PG_SCHEMA RAW_GAMES_TABLE = None
   ∨ ∃ t, db !! qualified PG_SCHEMA RAW_GAMES_TABLE = Some t
          ∧ "game_id" ∉ columns t) →
  (∃ msg, res (main api db) = Raise (ProgrammingError msg))
  ∧ calls (log (main api db)) = []
  ∧ writes (log (main api db)) = []
  ∧ final (main api db) = db.
Proof.
  intros H.
  assert (∃ msg, res (load_game_ids db) = Raise (ProgrammingError msg))
    as [msg Hload].
  { rewrite load_game_ids_spec. cbn [res].
    destruct H as [->|(t & -> & Ht)]; [eauto|].
    rewrite decide_False by done. eauto. }
  rewrite (main_load_fails _ _ _ Hload). cbn [res log final]. eauto.
Qed.

Lemma main_needs_games_table_witness :
  (∃ msg, res (main Sample.second_fails ∅) = Raise (ProgrammingError msg))
  ∧ calls (log (main Sample.second_fails ∅)) = []
  ∧ writes (log (main Sample.second_fails ∅)) = []
  ∧ final (main Sample.second_fails ∅) = ∅.
Proof.
  apply (main_needs_games_table Sample.second_fails ∅).
  left. reflexivity.
Defined.

(** X2: the season scripts do not guard their request: when it raises, the
    script ends with that exception, and when it answers with no frame, with
    the IndexError of [[0]]; either way nothing is written and the database
    is left as it was. *)
Theorem season_scripts_fail_without_writing api db :
  let games := TeamGameLog IngestGames.NUGGETS_TEAM_ID IngestGames.SEASON in
  let logs :=
    LeagueGameLog IngestPlayerGameLogs.SEASON "Regular Season" "ASC" in
  (∀ e, api games = Raise e ∨ (api games = Ok [] ∧ e = IndexError) →
     res (IngestGames.script api db) = Raise e
     ∧ writes (log (IngestGames.script api db)) = []
     ∧ final (IngestGames.script api db) = db)
  ∧ (∀ e, api logs = Raise e ∨ (api logs = Ok [] ∧ e = IndexError) →
     res (IngestPlayerGameLogs.script api db) = Raise e
     ∧ writes (log (IngestPlayerGameLogs.script api db)) = []
     ∧ final (IngestPlayerGameLogs.script api db) = db).
Proof.
  intros games logs. split; intros e [H|[H ->]].
  - unfold IngestGames.script. rewrite bind_print.
    unfold bind, call. cbn [res log final]. fold games. by rewrite H.
  - unfold IngestGames.script. rewrite bind_print.
    unfold bind, call, lift. cbn [res log final]. fold games. by rewrite H.
  - unfold IngestPlayerGameLogs.script. rewrite bind_print.
    unfold bind, call. cbn [res log final]. fold logs. by rewrite H.
  - unfold IngestPlayerGameLogs.script. rewrite bind_print.
    unfold bind, call, lift. cbn [res log final]. fold logs. by rewrite H.
Qed.

Lemma season_scripts_fail_without_writing_witness :
  res (IngestGames.script Sample.all_fail Sample.db)
    = Raise (ApiError "unexpected request")
  ∧ final (IngestGames.script Sample.all_fail Sample.db) = Sample.db
  ∧ res (IngestPlayerGameLogs.script Sample.all_fail Sample.db)
    = Raise (ApiError "unexpected request")
  ∧ final (IngestPlayerGameLogs.script Sample.all_fail Sample.db) = Sample.db.
Proof.
  destruct (season_scripts_fail_without_writing Sample.all_fail Sample.db)
    as [H1 H2].
  destruct (H1 (ApiError "unexpected request")) as (Hr1 & _ & Hf1);
    [left; reflexivity|].
  destruct (H2 (ApiError "unexpected request")) as (Hr2 & _ & Hf2);
    [left; reflexivity|].
  repeat split; assumption.
Defined.

(** X3: the progress lines of a run number the game ids from 1, each with
    the total number of game ids loaded, in the order of the ids. *)
Theorem progress_lines_enumerate api db (game_ids : list value) :
  res (load_game_ids db) = Ok game_ids →
  progress (log (main api db))
    = imap (λ i game_id, (S i, length game_ids, game_id)) game_ids.
Proof.
  intros Hload. rewrite (main_spec _ _ _ Hload). cbn zeta. cbn [log].
  unfold progress. rewrite !omap_app.
  fold (progress (loop_log api 1 (length game_ids) game_ids)).
  rewrite progress_loop_log.
  destruct (write_all_cases (omap (prepared api) game_ids) db)
    as [[_ ->]|[(full_df & _ & _ & _ & ->)|(full_df & _ & _ & _ & ->)]]; cbn; by rewrite app_nil_r.
Qed.

Lemma progress_lines_enumerate_witness :
  progress (log (main Sample.second_fails Sample.db))
    = [(1, 2, VStr "0022300001"); (2, 2, VStr "0022300002")].
Proof.
  apply (progress_lines_enumerate Sample.second_fails Sample.db
           [VStr "0022300001"; VStr "0022300002"]).
  by vm_compute.
Defined.

(** X4: a run prints one error line per request that raised, with the game
    id and the exception, in the order of the game ids, and no error line
    for any other game id. *)
Theorem error_lines_name_failures api db (game_ids : list value) :
  res (load_game_ids db) = Ok game_ids →
  errors (log (main api db)) = omap (failure api) game_ids.
Proof.
  intros Hload. rewrite (main_spec _ _ _ Hload). cbn zeta. cbn [log].
  unfold errors. rewrite !omap_app.
  fold (errors (loop_log api 1 (length game_ids) game_ids)).
  rewrite errors_loop_log.
  destruct (write_all_cases (omap (prepared api) game_ids) db)
    as [[_ ->]|[(full_df & _ & _ & _ & ->)|(full_df & _ & _ & _ & ->)]]; cbn; by rewrite app_nil_r.
Qed.

Lemma error_lines_name_failures_witness :
  errors (log (main Sample.second_fails Sample.db))
    = [(VStr "0022300002", ApiError "timeout")].
Proof.
  apply (error_lines_name_failures Sample.second_fails Sample.db
           [VStr "0022300001"; VStr "0022300002"]).
  by vm_compute.
Defined.

(** X5: a run pauses for 600 milliseconds once per frame it accumulated, and
    at no other time. *)
Theorem pauses_follow_accumulated_frames api db (game_ids : list value)
    all_rows :
  res (load_game_ids db) = Ok game_ids →
  res (fetch_loop api 1 (length game_ids) game_ids [] db) = Ok all_rows →
  sleeps (log (main api db)) = replicate (length all_rows) 600%Z.
Proof.
  intros Hload Hloop. rewrite fetch_loop_spec in Hloop.
  injection Hloop as <-.
  rewrite (main_spec _ _ _ Hload). cbn zeta. cbn [log].
  unfold sleeps. rewrite !omap_app.
  fold (sleeps (loop_log api 1 (length game_ids) game_ids)).
  rewrite sleeps_loop_log.
  destruct (write_all_cases (omap (prepared api) game_ids) db)
    as [[_ ->]|[(full_df & _ & _ & _ & ->)|(full_df & _ & _ & _ & ->)]]; cbn; by rewrite app_nil_r.
Qed.

Lemma pauses_follow_accumulated_frames_witness :
  sleeps (log (main Sample.second_fails Sample.db)) = [600%Z].
Proof.
  apply (pauses_follow_accumulated_frames Sample.second_fails Sample.db
           [VStr "0022300001"; VStr "0022300002"] [attach (VStr "0022300001") Sample.two_players]);
    by vm_compute.
Defined.

(** X6: a run that accumulated frames the database accepts writes once, as
    its last action before the closing line, and ends normally: every
    request of the run precedes the write, and the printed total is the
    number of records written. *)
Theorem single_write_after_all_requests api db (game_ids : list value)
    full_df :
  res (load_game_ids db) = Ok game_ids →
  Forall wf_frame (payloads api game_ids) →
  Forall (λ df0, "game_id" ∉ columns df0) (payloads api game_ids) →
  concat (omap (prepared api) game_ids) = Ok full_df →
  res (main api db) = Ok tt
  ∧ ∃ before,
      log (main api db)
        = before ++ [Print (MsgTotal (len (normalize full_df)));
                     Print (MsgWriting destination);
                     ToSql destination (normalize full_df);
                     Print MsgDone]
      ∧ calls before = BoxScoreTraditionalV3 <$> game_ids
      ∧ writes before = [].
Proof.
  intros Hload Hwf Hlow Hc.
  destruct (written_wf api game_ids full_df Hwf Hlow Hc) as ([Hnd _] & _).
  rewrite (main_written _ _ _ _ Hload Hc Hnd). cbn [res log].
  split; [done|].
  exists (preamble (length game_ids)
            ++ loop_log api 1 (length game_ids) game_ids).
  split; [|split].
  - rewrite <- app_assoc. unfold len. by rewrite normalize_rows.
  - unfold calls. rewrite omap_app.
    fold (calls (loop_log api 1 (length game_ids) game_ids)).
    by rewrite calls_loop_log.
  - unfold writes. rewrite omap_app.
    fold (writes (loop_log api 1 (length game_ids) game_ids)).
    by rewrite writes_loop_log.
Qed.

Lemma single_write_after_all_requests_witness :
  res (main Sample.second_fails Sample.db) = Ok tt
  ∧ ∃ before,
      log (main Sample.second_fails Sample.db)
        = before ++ [Print (MsgTotal 2);
                     Print (MsgWriting destination);
                     ToSql destination
                       {| columns := ["personId"; "points"; "game_id"];
                          rows := [[VInt 203999; VInt 30; VStr "0022300001"];
                                   [VInt 1627750; VInt 20;
                                    VStr "0022300001"]] |};
                     Print MsgDone]
      ∧ calls before = [BoxScoreTraditionalV3 (VStr "0022300001");
                        BoxScoreTraditionalV3 (VStr "0022300002")]
      ∧ writes before = [].
Proof.
  apply (single_write_after_all_requests Sample.second_fails Sample.db
           [VStr "0022300001"; VStr "0022300002"]
           {| columns := ["personId"; "points"; "GAME_ID"];
              rows := [[VInt 203999; VInt 30; VStr "0022300001"];
                       [VInt 1627750; VInt 20; VStr "0022300001"]] |}).
  - by vm_compute.
  - computed.
  - computed.
  - by vm_compute.
Defined.

(** X7: under a renaming that sends no two old names to one new name and
    whose new names are not yet labels of the frame, every record keeps its
    cells: the cell under a new name is the cell it had under the old name,
    and the cell under a label that is not renamed is unchanged. *)
Theorem rename_moves_cells m df row :
  one_to_one m →
  fresh_targets m (columns df) →
  (∀ k t, m !! k = Some t →
     cell (columns (rename m df)) row t = cell (columns df) row k)
  ∧ (∀ c, m !! c = None → c ∈ columns df →
       cell (columns (rename m df)) row c = cell (columns df) row c).
Proof.
  intros Hm Hfresh. split.
  - intros k t Hk. unfold rename. cbn [columns].
    apply cell_fmap_labels. intros c' Hc'.
    apply (rename_label_hits m k t (columns df)); try done.
    apply (map_Forall_lookup_1 _ _ _ _ Hfresh Hk).
  - intros c Hc Hin. unfold rename. cbn [columns].
    apply cell_fmap_labels. intros c' Hc'.
    by apply (rename_label_keeps m c (columns df)).
Qed.

Lemma rename_moves_cells_witness :
  cell (columns (rename IngestGames.renamed_columns Sample.team_log))
       [VInt 1610612743; VStr "0022300001"; VStr "OCT 24, 2023";
        VStr "DEN vs. LAL"; VStr "W"; VInt 119] "team_points"
    = Some (VInt 119)
  ∧ cell (columns (rename IngestPlayerGameLogs.renamed_columns
                     Sample.league_log))
       [VStr "22023"; VInt 203999; VStr "Nikola Jokic"; VInt 1610612743;
        VStr "Denver Nuggets"; VStr "0022300001"; VInt 29] "player_name"
    = Some (VStr "Nikola Jokic").
Proof.
  split.
  - destruct (rename_moves_cells IngestGames.renamed_columns Sample.team_log
                [VInt 1610612743; VStr "0022300001"; VStr "OCT 24, 2023";
                 VStr "DEN vs. LAL"; VStr "W"; VInt 119]) as [H _];
      [computed | computed |].
    rewrite (H "PTS" "team_points"); by vm_compute.
  - destruct (rename_moves_cells IngestPlayerGameLogs.renamed_columns
                Sample.league_log
                [VStr "22023"; VInt 203999; VStr "Nikola Jokic";
                 VInt 1610612743; VStr "Denver Nuggets"; VStr "0022300001";
                 VInt 29]) as [H _];
      [computed | computed |].
    rewrite (H "Player_Name" "player_name"); by vm_compute.
Defined.

(** X8: under such a renaming a well-formed frame stays well formed: the
    labels stay distinct, as many as before, and every record keeps one
    cell per label. *)
Theorem rename_keeps_frames_well_formed m df :
  one_to_one m →
  fresh_targets m (columns df) →
  wf_frame df →
  wf_frame (rename m df)
  ∧ length (columns (rename m df)) = length (columns df)
  ∧ len (rename m df) = len df.
Proof.
  intros Hm Hfresh Hwf. split; [by apply rename_wf|]. split; [|done].
  unfold rename. cbn [columns]. apply length_fmap.
Qed.

Lemma rename_keeps_frames_well_formed_witness :
  wf_frame (rename IngestGames.renamed_columns Sample.team_log)
  ∧ wf_frame (rename IngestPlayerGameLogs.renamed_columns Sample.league_log).
Proof.
  split.
  - apply (rename_keeps_frames_well_formed IngestGames.renamed_columns
             Sample.team_log); computed.
  - apply (rename_keeps_frames_well_formed
             IngestPlayerGameLogs.renamed_columns Sample.league_log);
      computed.
Defined.

(** X9: the transformation of the team game log loses nothing: on a
    well-formed frame none of whose labels is one of the new names, the
    cleaned frame is well formed, has the same number of records, holds
    under each new name the column the frame had under the old name, and
    leaves every other column but [season] as it was. *)
Theorem games_clean_keeps_columns df :
  wf_frame df →
  fresh_targets IngestGames.renamed_columns (columns df) →
  wf_frame (IngestGames.clean df)
  ∧ len (IngestGames.clean df) = len df
  ∧ (∀ k t, IngestGames.renamed_columns !! k = Some t →
       column (IngestGames.clean df) t = column df k)
  ∧ (∀ c, IngestGames.renamed_columns !! c = None →
       c ∈ columns df → c ≠ "season" →
       column (IngestGames.clean df) c = column df c).
Proof.
  intros Hwf Hfresh. unfold IngestGames.clean.
  split; [|split; [|split]].
  - apply set_column_wf.
    apply rename_wf; [apply games_renaming_one_to_one | done | done].
  - by rewrite set_column_len.
  - intros k t Hk. rewrite set_column_other.
    + apply column_rename_target; [apply games_renaming_one_to_one|done|].
      apply (map_Forall_lookup_1 _ _ _ _ Hfresh Hk).
    + apply (map_Forall_lookup_1 _ _ _ _ games_targets_not_season Hk).
    + apply rename_shaped. by destruct Hwf.
  - intros c Hc Hin Hne. rewrite set_column_other.
    + by apply column_rename_other.
    + done.
    + apply rename_shaped. by destruct Hwf.
Qed.

Lemma games_clean_keeps_columns_witness :
  wf_frame (IngestGames.clean Sample.team_log)
  ∧ column (IngestGames.clean Sample.team_log) "win_loss"
    = column Sample.team_log "WL"
  ∧ column (IngestGames.clean Sample.team_log) "Team_ID"
    = column Sample.team_log "Team_ID".
Proof.
  destruct (games_clean_keeps_columns Sample.team_log)
    as (Hwf & _ & Hmoved & Hkept); [computed | computed |].
  split; [exact Hwf|]. split.
  - apply (Hmoved "WL" "win_loss"). by vm_compute.
  - apply (Hkept "Team_ID"); [by vm_compute | computed | done].
Defined.

(** X10: the scripts compose: after the team game-log script has written a
    well-formed response that has a [Game_ID] column and none of the new
    names as a label, the box-score script finds its game ids: they are the
    distinct [Game_ID] values of the response in ascending order, and it
    sends one request for each of them. *)
Theorem games_feed_boxscores api db df dfs :
  api (TeamGameLog IngestGames.NUGGETS_TEAM_ID IngestGames.SEASON)
    = Ok (df :: dfs) →
  wf_frame df →
  fresh_targets IngestGames.renamed_columns (columns df) →
  "Game_ID" ∈ columns df →
  let db' := final (IngestGames.script api db) in
  res (IngestGames.script api db) = Ok tt
  ∧ db' !! "public.raw_nba_games" = Some (IngestGames.clean df)
  ∧ res (load_game_ids db') = Ok (distinct_ordered df "Game_ID")
  ∧ calls (log (main api db'))
      = BoxScoreTraditionalV3 <$> distinct_ordered df "Game_ID".
Proof.
  intros Hapi Hwf Hfresh Hin db'.
  assert (Hs : shaped df) by (by destruct Hwf).
  assert (Hlow : "game_id" ∉ columns df).
  { apply (map_Forall_lookup_1 _ _ "Game_ID" "game_id" Hfresh).
    by vm_compute. }
  assert (Hnd : NoDup (columns (IngestGames.clean df))).
  { by destruct (games_clean_wf df Hwf Hfresh). }
  assert (Hrun : IngestGames.script api db =
    mkOutcome (Ok tt)
      [Print MsgFetchingLogs;
       Call (TeamGameLog IngestGames.NUGGETS_TEAM_ID IngestGames.SEASON);
       Print (MsgFetched (len df));
       Print (MsgWriting "raw_nba_games");
       ToSql "public.raw_nba_games" (IngestGames.clean df);
       Print MsgDone]
      (<["public.raw_nba_games" := IngestGames.clean df]> db)).
  { rewrite (ingest_games_spec _ _ _ _ Hapi). by rewrite decide_True. }
  assert (Hload : res (load_game_ids db')
                    = Ok (distinct_ordered df "Game_ID")).
  { unfold db'. rewrite Hrun. cbn [final].
    rewrite load_game_ids_spec. cbn [res].
    change (qualified PG_SCHEMA RAW_GAMES_TABLE) with "public.raw_nba_games".
    rewrite lookup_insert_eq.
    assert (Hcol : column (IngestGames.clean df) "game_id"
                     = column df "Game_ID").
    { unfold IngestGames.clean. rewrite set_column_other.
      - apply column_rename_target;
          [apply games_renaming_one_to_one | by vm_compute | done].
      - done.
      - by apply rename_shaped. }
    assert (Hhas : "game_id" ∈ columns (IngestGames.clean df)).
    { unfold IngestGames.clean, set_column.
      assert ("game_id" ∈ columns (rename IngestGames.renamed_columns df)).
      { unfold rename. cbn [columns]. apply list_elem_of_fmap.
        exists "Game_ID". split; [by vm_compute|done]. }
      destruct (decide _); cbn [columns]; [done|set_solver]. }
    rewrite decide_True by done.
    unfold distinct_ordered. by rewrite Hcol. }
  split; [by rewrite Hrun|]. split.
  - unfold db'. rewrite Hrun. cbn [final]. apply lookup_insert_eq.
  - split; [done|]. by apply main_calls.
Qed.

Lemma games_feed_boxscores_witness :
  res (IngestGames.script Sample.season_api ∅) = Ok tt
  ∧ final (IngestGames.script Sample.season_api ∅) !! "public.raw_nba_games"
    = Some (IngestGames.clean Sample.team_log)
  ∧ res (load_game_ids (final (IngestGames.script Sample.season_api ∅)))
    = Ok [VStr "0022300001"]
  ∧ calls (log (main Sample.season_api
                  (final (IngestGames.script Sample.season_api ∅))))
    = [BoxScoreTraditionalV3 (VStr "0022300001")].
Proof.
  apply (games_feed_boxscores Sample.season_api ∅ Sample.team_log []).
  - reflexivity.
  - computed.
  - computed.
  - computed.
Defined.

(** X11: the frame a box-score run writes is well formed whenever the
    payloads are and none has a [game_id] label: its labels are distinct,
    every record has one cell per label, and the join key is there under
    [game_id] only, not under [GAME_ID]. *)
Theorem written_frame_well_formed api (game_ids : list value) full_df :
  Forall wf_frame (payloads api game_ids) →
  Forall (λ df0, "game_id" ∉ columns df0) (payloads api game_ids) →
  concat (omap (prepared api) game_ids) = Ok full_df →
  wf_frame (normalize full_df)
  ∧ "game_id" ∈ columns (normalize full_df)
  ∧ "GAME_ID" ∉ columns (normalize full_df).
Proof. apply written_wf. Qed.

Lemma written_frame_well_formed_witness :
  wf_frame
    (normalize
       {| columns := ["GAME_ID"; "personId"; "points"];
          rows := [[VStr "0029999999"; VInt 203999; VNull];
                   [VStr "0022300002"; VInt 203999; VInt 30];
                   [VStr "0022300002"; VInt 1627750; VInt 20]] |}).
Proof.
  apply (written_frame_well_formed Sample.own_keys
           [VStr "0022300001"; VStr "0022300002"]
           {| columns := ["GAME_ID"; "personId"; "points"];
              rows := [[VStr "0029999999"; VInt 203999; VNull];
                       [VStr "0022300002"; VInt 203999; VInt 30];
                       [VStr "0022300002"; VInt 1627750; VInt 20]] |}).
  - computed.
  - computed.
  - by vm_compute.
Defined.



(** X13: with a service that answers the same, running a script a second
    time changes nothing: each of the three scripts leaves the database of
    its first run as it is. *)
Theorem rerun_changes_nothing api db :
  final (main api (final (main api db))) = final (main api db)
  ∧ final (IngestGames.script api (final (IngestGames.script api db)))
    = final (IngestGames.script api db)
  ∧ final (IngestPlayerGameLogs.script api
             (final (IngestPlayerGameLogs.script api db)))
    = final (IngestPlayerGameLogs.script api db).
Proof.
  split; [|split].
  - destruct (main_final_cases api db)
      as [Hsame|(game_ids & full_df & Hload & Hc & Hnd & Hfinal)].
    + by rewrite !Hsame.
    + rewrite Hfinal.
      rewrite (main_final api _ game_ids full_df).
      * apply insert_insert_eq.
      * by rewrite load_game_ids_prior.
      * done.
      * done.
  - rewrite !ingest_games_final.
    destruct (api _) as [[|df dfs]|e]; try done.
    destruct (decide _); [|done]. apply insert_insert_eq.
  - rewrite !ingest_player_game_logs_final.
    destruct (api _) as [[|df dfs]|e]; try done.
    destruct (decide _); [|done]. apply insert_insert_eq.
Qed.

(** X14: when all payloads of a run have the same distinct labels, none of
    them [GAME_ID] or [game_id], the written frame has these labels followed
    by [game_id], and its records are the payloads' records in the order of
    the game ids, each with its game id as last cell. *)
Theorem same_labels_plain_concatenation api (game_ids : list value) full_df
    cols :
  Forall (λ df0, columns df0 = cols ∧ shaped df0) (payloads api game_ids) →
  NoDup cols → "GAME_ID" ∉ cols → "game_id" ∉ cols →
  concat (omap (prepared api) game_ids) = Ok full_df →
  normalize full_df
    = {| columns := cols ++ ["game_id"];
         rows := id ← game_ids;
                 from_option (λ df0, (λ r, r ++ [id]) <$> rows df0) []
                             (first_result api id) |}.
Proof.
  intros Hsame Hnd HG HL Hc. rewrite Forall_forall in Hsame.
  assert (Hframes : ∀ f, f ∈ omap (prepared api) game_ids →
            ∃ id df0, id ∈ game_ids ∧ first_result api id = Some df0
              ∧ columns df0 = cols ∧ shaped df0
              ∧ f = {| columns := cols ++ ["GAME_ID"];
                       rows := (λ r, r ++ [id]) <$> rows df0 |}).
  { intros f (id & df0 & Hid & Hfr & ->)%elem_of_all_rows.
    destruct (Hsame df0 (elem_of_payloads _ _ _ _ Hid Hfr)) as [Hcols Hs].
    exists id, df0. repeat (split; [done|]).
    rewrite attach_absent by (by rewrite Hcols). by rewrite Hcols. }
  assert (HU : columns full_df = cols ++ ["GAME_ID"]).
  { rewrite (concat_Ok _ _ Hc). cbn [columns].
    destruct (omap (prepared api) game_ids) as [|f frames] eqn:E; [done|].
    apply union_columns_same. apply Forall_forall. intros g Hg.
    destruct (Hframes g Hg) as (id & df0 & _ & _ & _ & _ & ->). done. }
  assert (Hnd' : NoDup (cols ++ ["GAME_ID"])).
  { apply NoDup_app. split; [done|]. split; [set_solver|].
    apply NoDup_singleton. }
  rewrite normalize_unfold by (rewrite HU; set_solver).
  unfold rename. f_equal.
  - rewrite HU, fmap_app. cbn. unfold GAME_ID_to_game_id.
    rewrite rename_label_singleton_eq. f_equal.
    rewrite <- (list_fmap_id cols) at 2.
    apply list_fmap_ext. intros _ c Hc'%list_elem_of_lookup_2. cbn.
    apply rename_label_singleton_ne. by intros ->.
  - assert (Hrows : rows full_df =
              f ← omap (prepared api) game_ids;
              reindex (columns full_df) (columns f) <$> rows f).
    { by rewrite (concat_Ok _ _ Hc). }
    rewrite Hrows, HU. clear Hrows.
    assert (Hall :
      (f ← omap (prepared api) game_ids;
       reindex (cols ++ ["GAME_ID"]) (columns f) <$> rows f)
      = f ← omap (prepared api) game_ids; rows f).
    { apply Forall_bind_ext, Forall_forall. intros f Hf.
      destruct (Hframes f Hf) as (id & df0 & _ & _ & Hcols & Hs & ->).
      cbn [rows columns]. rewrite <- (list_fmap_id ((λ r, r ++ [id]) <$> rows df0)) at 2.
      apply Forall_fmap_ext, Forall_fmap.
      eapply Forall_impl; [exact Hs|]. intros r Hr. cbn.
      apply reindex_same; [done|]. rewrite !length_app, Hr, Hcols. done. }
    rewrite Hall, list_bind_omap.
    apply Forall_bind_ext, Forall_forall. intros id Hid.
    unfold prepared. destruct (first_result api id) as [df0|] eqn:E; [|done].
    cbn. destruct (Hsame df0 (elem_of_payloads _ _ _ _ Hid E)) as [Hcols _].
    rewrite attach_absent by (by rewrite Hcols). done.
Qed.

Lemma same_labels_plain_concatenation_witness :
  normalize
    {| columns := ["personId"; "points"; "GAME_ID"];
       rows := [[VInt 203999; VInt 30; VStr "0022300001"];
                [VInt 1627750; VInt 20; VStr "0022300001"]] |}
  = {| columns := ["personId"; "points"; "game_id"];
       rows := [[VInt 203999; VInt 30; VStr "0022300001"];
                [VInt 1627750; VInt 20; VStr "0022300001"]] |}.
Proof.
  apply (same_labels_plain_concatenation Sample.second_fails
           [VStr "0022300001"; VStr "0022300002"]
           {| columns := ["personId"; "points"; "GAME_ID"];
              rows := [[VInt 203999; VInt 30; VStr "0022300001"];
                       [VInt 1627750; VInt 20; VStr "0022300001"]] |}
           ["personId"; "points"]).
  - computed.
  - computed.
  - computed.
  - computed.
  - by vm_compute.
Defined.

(** X15: of the database, a box-score run looks at the games table only:
    two databases with the same games table give the same result and the
    same events, and the same table to write. *)
Theorem main_reads_games_table_only api db1 db2 :
  db1 !! qualified PG_SCHEMA RAW_GAMES_TABLE
    = db2 !! qualified PG_SCHEMA RAW_GAMES_TABLE →
  res (main api db1) = res (main api db2)
  ∧ log (main api db1) = log (main api db2)
  ∧ (final (main api db1) = db1 ∧ final (main api db2) = db2
     ∨ ∃ written,
         final (main api db1) = <[destination := written]> db1
         ∧ final (main api db2) = <[destination := written]> db2).
Proof.
  intros Hsame.
  assert (Hload : res (load_game_ids db1) = res (load_game_ids db2)).
  { rewrite !load_game_ids_spec. cbn [res]. by rewrite Hsame. }
  destruct (res (load_game_ids db2)) as [game_ids|e] eqn:Hload2.
  - rewrite (main_spec _ _ _ Hload), (main_spec _ _ _ Hload2). cbn zeta.
    destruct (write_all_cases (omap (prepared api) game_ids) db1)
      as [[Hnil ->]|[(full_df & Hne & Hc & Hnd & ->)
                    |(full_df & Hne & Hc & Hnd & ->)]].
    + rewrite Hnil, write_all_empty. cbn [res log final]. auto.
    + rewrite (write_all_nonempty _ _ db2 Hne Hc).
      rewrite decide_True by done. cbn [res log final].
      split; [done|]. split; [done|]. right. eauto.
    + rewrite (write_all_nonempty _ _ db2 Hne Hc).
      rewrite decide_False by done. cbn [res log final]. auto.
  - rewrite (main_load_fails _ _ _ Hload), (main_load_fails _ _ _ Hload2).
    cbn [res log final]. auto.
Qed.

Lemma main_reads_games_table_only_witness :
  log (main Sample.second_fails Sample.db)
    = log (main Sample.second_fails
             (delete "public.raw_nba_boxscores" Sample.db)).
Proof.
  destruct (main_reads_games_table_only Sample.second_fails Sample.db
              (delete "public.raw_nba_boxscores" Sample.db))
    as (_ & Hlog & _); [by vm_compute|].
  exact Hlog.
Defined.
